(** * Nested-relationship mutation resolver of keystone

    A shallow embedding of [validateInput], [cleanAndValidateInput],
    [_runActions], [resolveNestedMany], [resolveNestedSingle] and
    [resolveNested], followed by the properties of the resolver.

    - JavaScript values are a small inductive type ([JS.value]); the runtime
      operations the resolver relies on (truthiness, property reads,
      [Object.keys], [toString], [===]) are written out in [Module JS].
    - The list collaborator ([refList.itemQuery], [refList.createMutation]) is
      an oracle that may depend on every call issued so far; resolvers run in
      a state-and-exception monad whose state is the trace of collaborator
      calls. *)

From Stdlib Require Import ZArith List String Ascii Bool DecimalString Sorted Lia.
Import ListNotations.
Open Scope string_scope.

Set Warnings "-register-all".

(* ================================================================= *)
(** ** JavaScript values and the runtime operations used by the code *)

Module JS.

(** Primitive values.  Numbers are the integers a double holds exactly
    (the safe integers, up to 2^53 - 1 in magnitude: identifiers, indices,
    lengths); [NaN], fractions and larger magnitudes do not occur in the
    resolver and are outside the model. *)
Inductive prim : Type :=
| Undefined
| Null
| Boolean (b : bool)
| Number (n : Z)
| Str (s : string).

(** JSON-like values: a primitive, an array, or a plain object whose own
    enumerable properties are listed in enumeration order. *)
Inductive value : Type :=
| Prim (p : prim)
| Arr (items : list value)
| Obj (props : list (string * value)).

Coercion Prim : prim >-> value.

Definition undefined : value := Prim Undefined.

Definition is_empty_string (s : string) : bool :=
  match s with EmptyString => true | String _ _ => false end.

(** [ToBoolean]. *)
Definition truthy_prim (p : prim) : bool :=
  match p with
  | Undefined | Null => false
  | Boolean b => b
  | Number n => negb (n =? 0)%Z
  | Str s => negb (is_empty_string s)
  end.

Definition truthy (v : value) : bool :=
  match v with
  | Prim p => truthy_prim p
  | Arr _ | Obj _ => true
  end.

Definition nullish (v : value) : bool :=
  match v with
  | Prim Undefined | Prim Null => true
  | _ => false
  end.

(** [a || b]. *)
Definition or_else (a b : value) : value := if truthy a then a else b.

Fixpoint assoc (k : string) (ps : list (string * value)) : option value :=
  match ps with
  | [] => None
  | (k', v) :: rest => if String.eqb k k' then Some v else assoc k rest
  end.

Definition has_key (k : string) (ps : list (string * value)) : bool :=
  match assoc k ps with Some _ => true | None => false end.

(** [v[k]] / [v.k] for a property name [k] that is neither an array index,
    [length], nor a prototype member: every name the resolver reads ([id],
    [create], [connect], [disconnect], [disconnectAll]) is such.  [None] is
    the [TypeError] raised when [v] is [null] or [undefined]. *)
Definition getProp (v : value) (k : string) : option value :=
  match v with
  | Prim Undefined | Prim Null => None
  | Obj ps => Some (match assoc k ps with Some x => x | None => undefined end)
  | Prim _ | Arr _ => Some undefined
  end.

Definition string_of_nat (n : nat) : string :=
  NilEmpty.string_of_uint (Nat.to_uint n).

Definition string_of_Z (n : Z) : string :=
  NilZero.string_of_int (Z.to_int n).

Definition indices (n : nat) : list string := map string_of_nat (seq 0 n).

(** [Object.keys(v)]; [None] is the [TypeError] on [null]/[undefined]. *)
Definition objectKeys (v : value) : option (list string) :=
  match v with
  | Prim Undefined | Prim Null => None
  | Prim (Str s) => Some (indices (String.length s))
  | Prim _ => Some []
  | Arr xs => Some (indices (List.length xs))
  | Obj ps => Some (map fst ps)
  end.

(** [v.toString()]; [None] is a [TypeError] ([null]/[undefined] receiver, or
    an own, hence non-callable, [toString] property shadowing the method).
    A number prints as its decimal digits, which is what JavaScript prints
    for a safe integer (from 1e21 on it would switch to exponent form). *)
Fixpoint toString (v : value) : option string :=
  match v with
  | Prim Undefined | Prim Null => None
  | Prim (Boolean b) => Some (if b then "true" else "false")
  | Prim (Number n) => Some (string_of_Z n)
  | Prim (Str s) => Some s
  | Arr xs =>
      (fix join (ys : list value) : option string :=
         match ys with
         | [] => Some EmptyString
         | y :: rest =>
             let piece :=
               match y with
               | Prim Undefined | Prim Null => Some EmptyString
               | _ => toString y
               end in
             match piece, join rest with
             | Some a, Some b =>
                 Some (match rest with [] => a | _ :: _ => a ++ "," ++ b end)
             | _, _ => None
             end
         end) xs
  | Obj ps => if has_key "toString" ps then None else Some "[object Object]"
  end.

Definition prim_eqb (p q : prim) : bool :=
  match p, q with
  | Undefined, Undefined => true
  | Null, Null => true
  | Boolean a, Boolean b => Bool.eqb a b
  | Number a, Number b => (a =? b)%Z
  | Str a, Str b => String.eqb a b
  | _, _ => false
  end.

(** [p === v] for a primitive left operand: a primitive is never strictly
    equal to an array or an object. *)
Definition strict_equals (p : prim) (v : value) : bool :=
  match v with
  | Prim q => prim_eqb p q
  | Arr _ | Obj _ => false
  end.

Definition includes (k : string) (ks : list string) : bool :=
  existsb (String.eqb k) ks.

End JS.

Import JS.

(* ================================================================= *)
(** ** Thrown values, results and the resolver monad *)

(** What the code can throw: the runtime's [TypeError], the [ParameterError]
    of [./graphqlErrors] (constructed with a message), the [Error] built by
    [throwWithErrors] (a message and an [errors] list), and a rejection reason
    of the collaborator re-thrown by [await].  An [errors] entry
    [{ ...cause, path }] keeps the cause it spreads and the path it sets. *)
Inductive thrown : Type :=
| TypeError
| ParameterError (message : string)
| ErrorWithErrors (message : string) (errors : list entry)
| Rejection (reason : value)
with entry : Type :=
| Entry (cause : thrown) (path : list value).

Inductive res (A : Type) : Type :=
| Ok (a : A)
| Throw (e : thrown).
Arguments Ok {A} a.
Arguments Throw {A} e.

(** A collaborator call with the arguments the resolver passes. *)
Inductive call : Type :=
| ItemQuery (selector context : value) (queryName : string)
| CreateMutation (data context mutationState : value).

(** How the promise returned by a call settles. *)
Inductive outcome : Type :=
| Fulfilled (v : value)
| Rejected (reason : value).

Definition trace : Type := list (call * outcome).

(** The referenced list: its key, its query name, and how it answers a call
    given everything that was asked of it before. *)
Record RefList : Type := {
  key : string;
  itemQueryName : string;
  respond : trace -> call -> outcome
}.

Record LocalField : Type := { path : string }.

Definition M (A : Type) : Type := trace -> res A * trace.

Class Monad (m : Type -> Type) : Type := {
  ret : forall {A}, A -> m A;
  bind : forall {A B}, m A -> (A -> m B) -> m B
}.

#[global] Instance res_monad : Monad res := {
  ret := fun A a => Ok a;
  bind := fun A B r k => match r with Ok a => k a | Throw e => Throw e end
}.

#[global] Instance M_monad : Monad M := {
  ret := fun A a t => (Ok a, t);
  bind := fun A B c k t =>
            match c t with
            | (Ok a, t') => k a t'
            | (Throw e, t') => (Throw e, t')
            end
}.

Declare Scope monad_scope.
Delimit Scope monad_scope with monad.
Notation "x <- c ;; k" := (bind c (fun x => k))
  (at level 61, c at next level, right associativity) : monad_scope.
Notation "' p <- c ;; k" := (bind c (fun x => match x with p => k end))
  (at level 61, p pattern, c at next level, right associativity) : monad_scope.
Open Scope monad_scope.

Definition lift {A} (r : res A) : M A := fun t => (r, t).

Definition throw {A} (e : thrown) : M A := fun t => (Throw e, t).

(** [try { c } catch (error) { h error }]. *)
Definition try_catch {A} (c : M A) (h : thrown -> M A) : M A :=
  fun t => match c t with
           | (Ok a, t') => (Ok a, t')
           | (Throw e, t') => h e t'
           end.

(** A [TypeError] where the runtime has none to give. *)
Definition orTypeError {A} (o : option A) : res A :=
  match o with Some a => Ok a | None => Throw TypeError end.

Fixpoint mapM {m} `{Monad m} {A B} (f : A -> m B) (xs : list A) : m (list B) :=
  match xs with
  | [] => ret []
  | x :: rest => y <- f x ;; ys <- mapM f rest ;; ret (y :: ys)
  end.

(** [xs.filter(p)] for a callback that may throw. *)
Fixpoint filterM {A} (p : A -> res bool) (xs : list A) : res (list A) :=
  match xs with
  | [] => Ok []
  | x :: rest =>
      b <- p x ;; ys <- filterM p rest ;; ret (if (b : bool) then x :: ys else ys)
  end.

(** Issuing a call: the collaborator answers, the trace records it. *)
Definition perform (refList : RefList) (c : call) : M outcome :=
  fun t => let o := respond refList t c in (Ok o, (t ++ [(c, o)])%list).

Definition itemQuery (refList : RefList) (selector context : value)
    (queryName : string) : M outcome :=
  perform refList (ItemQuery selector context queryName).

Definition createMutation (refList : RefList) (data context mutationState : value)
    : M outcome :=
  perform refList (CreateMutation data context mutationState).

(** [await promise]. *)
Definition await (o : outcome) : M value :=
  match o with
  | Fulfilled v => ret v
  | Rejected r => throw (Rejection r)
  end.

(** [v.k] as a computation: a [TypeError] when [v] is [null]/[undefined]. *)
Definition prop (v : value) (k : string) : res value :=
  orTypeError (getProp v k).

(* ================================================================= *)
(** ** Helpers of [@voussoir/utils] *)

(** Modelled from the spec: [intersection] of [@voussoir/utils] is not among
    the sources.  "Computes the intersection of the input's keys with the
    fixed operation vocabulary; unknown keys are silently dropped": the
    members of [xs] that occur in [ys], in the order of [xs], each once. *)
Definition intersection (xs ys : list string) : list string :=
  nodup string_dec (filter (fun x => includes x ys) xs).

(** Modelled from the spec: [pick] of [@voussoir/utils] is not among the
    sources.  "The returned input is pruned to only the valid operation keys
    (invalid/empty ones removed)": the object that keeps exactly the
    properties of [obj] named in [keys]. *)
Definition pick (obj : value) (keys : list string) : value :=
  match obj with
  | Obj ps => Obj (filter (fun kv => includes (fst kv) keys) ps)
  | Prim _ | Arr _ => Obj []
  end.

(* ================================================================= *)
(** ** Input validation *)

Definition NESTED_MUTATIONS : list string :=
  ["create"; "connect"; "disconnect"; "disconnectAll"].

(** [Object.keys(item).length], as the truth value [filter] sees. *)
Definition hasKeys (item : value) : res bool :=
  ks <- orTypeError (objectKeys item) ;;
  ret (negb (List.length ks =? 0)%nat).

(** The to-many filter callback:
    [mutation === 'disconnectAll' ||
     (Array.isArray(input[mutation]) &&
      input[mutation].filter(item => Object.keys(item).length).length)]. *)
Definition keepMany (input : value) (mutation : string) : res bool :=
  if (mutation =? "disconnectAll")%string then ret true
  else
    v <- prop input mutation ;;
    match v with
    | Arr items =>
        kept <- filterM hasKeys items ;;
        ret (negb (List.length kept =? 0)%nat)
    | Prim _ | Obj _ => ret false
    end.

(** The to-one filter callback:
    [mutation === 'disconnectAll' || Object.keys(input[mutation]).length]. *)
Definition keepSingle (input : value) (mutation : string) : res bool :=
  if (mutation =? "disconnectAll")%string then ret true
  else
    v <- prop input mutation ;;
    hasKeys v.

(** The first half of [validateInput]: the recognised keys of the input,
    filtered down to those that carry parameters. *)
Definition validInputMutations (input : value) (many : bool) : res (list string) :=
  ks <- orTypeError (objectKeys input) ;;
  filterM (if many then keepMany input else keepSingle input)
          (intersection ks NESTED_MUTATIONS).

Definition missingMessage (target : string) : string :=
  "Must provide a nested mutation (" ++ String.concat ", " NESTED_MUTATIONS
  ++ ") when mutating " ++ target.

Definition conflictMessage (target : string) : string :=
  "Can only provide one of 'connect' or 'create' when mutating " ++ target.

Definition validateInput (input : value) (target : string) (many : bool)
    : res (list string) :=
  valid <- validInputMutations input many ;;
  if (List.length valid =? 0)%nat then
    Throw (ParameterError (missingMessage target))
  else if negb many && includes "create" valid && includes "connect" valid then
    Throw (ParameterError (conflictMessage target))
  else ret valid.

(** [throwWithErrors({ message, errors })]. *)
Definition throwWithErrors {A} (message : string) (errors : list entry) : res A :=
  Throw (ErrorWithErrors message errors).

Definition cleanAndValidateInput (input : value) (many : bool)
    (localField : LocalField) (target : string) : res value :=
  match validateInput input target many with
  | Ok valid => Ok (pick input valid)
  | Throw error =>
      throwWithErrors ("Nested mutation operation invalid for " ++ target)
                      [Entry error [Prim (Str (path localField))]]
  end.

(* ================================================================= *)
(** ** Settling a batch of actions *)

Definition isRejected (o : outcome) : bool :=
  match o with Rejected _ => true | Fulfilled _ => false end.

Definition isFulfilled (o : outcome) : bool :=
  match o with Fulfilled _ => true | Rejected _ => false end.

(** The [value] and [reason] fields of a settle record ([undefined] when the
    record has none). *)
Definition settledValue (o : outcome) : value :=
  match o with Fulfilled v => v | Rejected _ => undefined end.

Definition settledReason (o : outcome) : value :=
  match o with Rejected r => r | Fulfilled _ => undefined end.

(** [targets.map(action)]: the actions are started in input order; each
    promise is represented by the way it settles.  A truthy [targets] that is
    not an array has no callable [map]. *)
Definition mapAction (action : value -> M outcome) (targets : value)
    : M (list outcome) :=
  match targets with
  | Arr xs => mapM action xs
  | Prim _ | Obj _ => throw TypeError
  end.

(** [pSettle(promises)]: one settle record per promise, in input order. *)
Definition pSettle (promises : list outcome) : list outcome := promises.

(** [results.map((settleInfo, index) => ({ ...settleInfo, index }))]. *)
Definition withIndex (results : list outcome) : list (outcome * nat) :=
  combine results (seq 0 (List.length results)).

Definition index_value (index : nat) : value := Prim (Number (Z.of_nat index)).

Definition _runActions (action : value -> M outcome) (targets : value)
    (path : list value) : M (list value * list entry) :=
  promises <- mapAction action (or_else targets (Arr [])) ;;
  let results := pSettle promises in
  let errors :=
    map (fun si => Entry (Rejection (settledReason (fst si)))
                         (path ++ [index_value (snd si)])%list)
        (filter (fun si => isRejected (fst si)) (withIndex results)) in
  ret (if (List.length errors =? 0)%nat then map settledValue results else [],
       errors).

(* ================================================================= *)
(** ** The resolvers *)

(** [{ connect: [id], disconnect: [id] }]; [None] is an absent key. *)
Record ResolutionResult : Type := {
  disconnect : option (list value);
  connect : option (list value)
}.

(** [({ id }) => id]. *)
Definition idOf (item : value) : res value := prop item "id".

Section Resolvers.

(** The arguments shared by both resolvers. *)
Variable refList : RefList.
Variable context : value.
Variable localField : LocalField.
Variable target : string.
Variable mutationState : value.

(** [lodash.groupby] applied to a collection that is not an array.  The
    validator only lets arrays through to the to-many resolver, so this part
    of the library is left abstract. *)
Variable groupByOther : value -> res (list value * list value).

(** [groupBy(collection, ({ id }) => (id ? 'withId' : 'withoutId'))],
    destructured into [{ withId, withoutId }] and read through [|| []]. *)
Definition groupBy (collection : value) : res (list value * list value) :=
  match collection with
  | Arr xs =>
      tagged <- mapM (fun x => id <- idOf x ;; ret (truthy id, x)) xs ;;
      ret (map snd (filter (fun bx => fst bx) tagged),
           map snd (filter (fun bx => negb (fst bx)) tagged))
  | Prim _ | Obj _ => groupByOther collection
  end.

(** [where => refList.itemQuery(where, context, refList.gqlNames.itemQueryName)]. *)
Definition lookupSelector (where_ : value) : M outcome :=
  itemQuery refList where_ context (itemQueryName refList).

(** [where => refList.itemQuery(where.id, context, refList.gqlNames.itemQueryName)]. *)
Definition lookupId (where_ : value) : M outcome :=
  id <- lift (prop where_ "id") ;;
  itemQuery refList id context (itemQueryName refList).

(** [data => refList.createMutation(data, context, mutationState)]. *)
Definition createItem (data : value) : M outcome :=
  createMutation refList data context mutationState.

(** The "Disconnections" block of [resolveNestedMany]. *)
Definition manyDisconnections (input : value) (currentValue : list value)
    : M (list value) :=
  disconnectAll <- lift (prop input "disconnectAll") ;;
  if truthy disconnectAll then ret currentValue
  else
    selectors <- lift (prop input "disconnect") ;;
    if truthy selectors then
      ' (withId, withoutId) <- lift (groupBy selectors) ;;
      disconnectIds <- lift (mapM idOf withId) ;;
      settled <- mapM lookupSelector withoutId ;;
      let disconnectItems :=
        filter truthy (map settledValue (filter isFulfilled (pSettle settled))) in
      looked <- lift (mapM idOf disconnectItems) ;;
      ret (disconnectIds ++ looked)%list
    else ret [].

(** The "Connections" block of [resolveNestedMany]. *)
Definition manyConnections (input : value) : M (list value) :=
  toConnect <- lift (prop input "connect") ;;
  toCreate <- lift (prop input "create") ;;
  if truthy (or_else toConnect toCreate) then
    ' (connectedItems, connectErrors) <-
      _runActions lookupId toConnect
        [Prim (Str (path localField)); Prim (Str "connect")] ;;
    ' (createdItems, createErrors) <-
      _runActions createItem toCreate
        [Prim (Str (path localField)); Prim (Str "create")] ;;
    allConnectedIds <-
      lift (mapM idOf (filter truthy (connectedItems ++ createdItems)%list)) ;;
    let allErrors := (connectErrors ++ createErrors)%list in
    if negb (List.length allErrors =? 0)%nat then
      lift (throwWithErrors
              ("Unable to create and/or connect "
               ++ string_of_nat (List.length allErrors) ++ " " ++ target)
              allErrors)
    else ret allConnectedIds
  else ret [].

Definition resolveNestedMany (input : value) (currentValue : list value)
    : M ResolutionResult :=
  disconnectIds <- manyDisconnections input currentValue ;;
  allConnectedIds <- manyConnections input ;;
  ret {| disconnect := Some disconnectIds; connect := Some allConnectedIds |}.

(** How the disconnect block of [resolveNestedSingle] assigns
    [idToDisconnect] ([undefined] when the lookup is swallowed). *)
Definition resolveIdToDisconnect (input : value) (currentValue : prim) : M value :=
  disconnectAll <- lift (prop input "disconnectAll") ;;
  if truthy disconnectAll then ret (Prim currentValue)
  else
    selector <- lift (prop input "disconnect") ;;
    explicitId <- lift (prop selector "id") ;;
    if truthy explicitId then ret explicitId
    else
      try_catch
        (settled <- lookupSelector selector ;;
         item <- await settled ;;
         id <- lift (prop item "id") ;;
         s <- lift (orTypeError (toString id)) ;;
         ret (Prim (Str s)))
        (fun _ => ret undefined).

(** The disconnect block of [resolveNestedSingle]: what [result_.disconnect]
    is set to, if at all. *)
Definition singleDisconnection (input : value) (currentValue : prim)
    : M (option (list value)) :=
  selector <- lift (prop input "disconnect") ;;
  disconnectAll <- lift (prop input "disconnectAll") ;;
  if truthy (or_else selector disconnectAll) && truthy currentValue then
    idToDisconnect <- resolveIdToDisconnect input currentValue ;;
    if strict_equals currentValue idToDisconnect
    then ret (Some [idToDisconnect])
    else ret None
  else ret None.

(** The connect/create block of [resolveNestedSingle]. *)
Definition singleConnection (input : value) : M (option (list value)) :=
  toConnect <- lift (prop input "connect") ;;
  toCreate <- lift (prop input "create") ;;
  if truthy (or_else toConnect toCreate) then
    item <-
      try_catch
        (settled <-
           (if truthy toConnect
            then id <- lift (prop toConnect "id") ;;
                 itemQuery refList id context (itemQueryName refList)
            else createMutation refList toCreate context mutationState) ;;
         await settled)
        (fun error =>
           let operation := if truthy toConnect then "connect" else "create" in
           lift (throwWithErrors
                   ("Unable to " ++ operation ++ " a " ++ target)
                   [Entry error [Prim (Str (path localField));
                                 Prim (Str operation)]])) ;;
    if truthy item then
      id <- lift (prop item "id") ;;
      ret (Some [id])
    else ret None
  else ret None.

Definition resolveNestedSingle (input : value) (currentValue : prim)
    : M ResolutionResult :=
  disconnected <- singleDisconnection input currentValue ;;
  connected <- singleConnection input ;;
  ret {| disconnect := disconnected; connect := connected |}.

End Resolvers.

(** The relationship being mutated: its cardinality together with the value
    currently stored (an array of identifiers for to-many, one primitive
    identifier or [null]/[undefined] for to-one). *)
Inductive relationship : Type :=
| ToMany (currentValue : list value)
| ToOne (currentValue : prim).

Definition many (r : relationship) : bool :=
  match r with ToMany _ => true | ToOne _ => false end.

Record LocalList : Type := { localKey : string }.

(** [listInfo]: [local.list], [local.field] and [foreign.list]. *)
Record ListInfo : Type := {
  localList : LocalList;
  localField_ : LocalField;
  foreignList : RefList
}.

Definition targetOf (listInfo : ListInfo) : string :=
  localKey (localList listInfo) ++ "." ++ path (localField_ listInfo)
  ++ "<" ++ key (foreignList listInfo) ++ ">".

Definition resolveNested (groupByOther : value -> res (list value * list value))
    (input : value) (rel : relationship) (listInfo : ListInfo)
    (context mutationState : value) : M ResolutionResult :=
  let localField := localField_ listInfo in
  let refList := foreignList listInfo in
  let target := targetOf listInfo in
  cleaned <- lift (cleanAndValidateInput input (many rel) localField target) ;;
  match rel with
  | ToMany currentValue =>
      resolveNestedMany refList context localField target mutationState
        groupByOther cleaned currentValue
  | ToOne currentValue =>
      resolveNestedSingle refList context localField target mutationState
        cleaned currentValue
  end.

(* ================================================================= *)
(** ** Vocabulary of the properties *)

(** The events a batch of calls adds to the trace when the calls are issued
    in order from trace [t]: each call paired with the collaborator's answer. *)
Fixpoint ask (refList : RefList) (calls : list call) (t : trace)
    : list (call * outcome) :=
  match calls with
  | [] => []
  | c :: rest =>
      let o := respond refList t c in
      (c, o) :: ask refList rest (t ++ [(c, o)])%list
  end.

(** The failures of a settled batch, read off position by position: the
    outcome at position [index] contributes one entry, tagged with that
    position, exactly when it is a rejection. *)
Fixpoint failuresFrom (path : list value) (index : nat) (outcomes : list outcome)
    : list entry :=
  match outcomes with
  | [] => []
  | Rejected reason :: rest =>
      Entry (Rejection reason) (path ++ [index_value index])%list
      :: failuresFrom path (S index) rest
  | Fulfilled _ :: rest => failuresFrom path (S index) rest
  end.

(** The items of an operation's input list ([[]] when the key is absent). *)
Definition elements (v : value) : list value :=
  match v with Arr xs => xs | Prim _ | Obj _ => [] end.

(** Reading a property of a value known not to be [null]/[undefined]. *)
Definition field (v : value) (k : string) : value :=
  match getProp v k with Some x => x | None => undefined end.

(** The call each kind of sub-operation makes for one input item. *)
Definition connectCall (refList : RefList) (context : value) (where_ : value) : call :=
  ItemQuery (field where_ "id") context (itemQueryName refList).

Definition createCall (context mutationState : value) (data : value) : call :=
  CreateMutation data context mutationState.

Definition selectorCall (refList : RefList) (context : value) (where_ : value) : call :=
  ItemQuery where_ context (itemQueryName refList).

Definition operationPath (localField : LocalField) (operation : string) : list value :=
  [Prim (Str (path localField)); Prim (Str operation)].

(** A selector "carries an id" when its [id] is truthy. *)
Definition carriesId (selector : value) : bool := truthy (field selector "id").

(** The disconnect set as the specification words it: the identifiers of the
    selectors that carry one, then the identifiers of the items found by the
    lookups (failed lookups and null results contribute nothing). *)
Definition directIds (selectors : list value) : list value :=
  flat_map (fun s => if carriesId s then [field s "id"] else []) selectors.

Definition foundIds (outcomes : list outcome) : list value :=
  flat_map (fun o => match o with
                     | Fulfilled item => if truthy item then [field item "id"] else []
                     | Rejected _ => []
                     end) outcomes.

(** The identifiers listed under a key of the result ([[]] when absent). *)
Definition ids (set : option (list value)) : list value :=
  match set with Some l => l | None => [] end.

(** No identifier of the disconnect set is also in the connect set. *)
Definition disjointDelta (r : ResolutionResult) : Prop :=
  forall id, In id (ids (disconnect r)) -> ~ In id (ids (connect r)).

(** The shape validation guarantees for a to-many operation value: absent, or
    an array none of whose items is [null]/[undefined]. *)
Definition operandMany (input : value) (k : string) : Prop :=
  getProp input k = Some undefined \/
  exists items, getProp input k = Some (Arr items) /\
                Forall (fun x => nullish x = false) items.

Definition validatedMany (input : value) : Prop :=
  (exists ps, input = Obj ps) /\
  operandMany input "create" /\ operandMany input "connect" /\
  operandMany input "disconnect".

(** The message of the aggregate failure for [n] failed sub-operations. *)
Definition aggregateMessage (target : string) (n : nat) : string :=
  "Unable to create and/or connect " ++ string_of_nat n ++ " " ++ target.

(** The entry reported for the rejection found at position [i] of a batch. *)
Definition entryAt (path : list value) (outcomes : list outcome) (i : nat) : entry :=
  Entry (Rejection (settledReason (nth i outcomes (Fulfilled undefined))))
        (path ++ [index_value i])%list.

(** What [_runActions] reports for a batch: it issues one call per item, in
    input order, and returns one error entry per rejected call, the entries
    ordered by position and each tagged with its item's position. *)
Definition batchReport (refList : RefList) (action : value -> M outcome)
    (callOf : value -> call) (targets : value) (path : list value) (t : trace)
    : Prop :=
  let items := elements targets in
  let events := ask refList (map callOf items) t in
  exists values errors positions,
    _runActions action targets path t = (Ok (values, errors), (t ++ events)%list) /\
    StronglySorted lt positions /\
    (forall i, In i positions <->
               exists item reason,
                 nth_error items i = Some item /\
                 nth_error events i = Some (callOf item, Rejected reason)) /\
    errors = map (entryAt path (map snd events)) positions.

(** The identifier a to-one lookup by selector resolves to: the found item's
    [id] as a string, [undefined] when the lookup or the conversion fails. *)
Definition lookedUpId (o : outcome) : value :=
  match o with
  | Fulfilled item =>
      match getProp item "id" with
      | Some id => match toString id with
                   | Some s => Prim (Str s)
                   | None => undefined
                   end
      | None => undefined
      end
  | Rejected _ => undefined
  end.

(** The disconnect target of a to-one input and the trace after resolving
    it: the current value under [disconnectAll], else an explicit
    [disconnect.id], else the outcome of one lookup by selector. *)
Definition disconnectTarget (refList : RefList) (context input : value)
    (currentValue : prim) (t : trace) : value * trace :=
  if truthy (field input "disconnectAll") then (Prim currentValue, t)
  else
    let selector := field input "disconnect" in
    if truthy (field selector "id") then (field selector "id", t)
    else
      let c := selectorCall refList context selector in
      let o := respond refList t c in
      (lookedUpId o, (t ++ [(c, o)])%list).

(** The one call the to-one connect block makes. *)
Definition singleCall (refList : RefList) (context mutationState input : value)
    : call :=
  if truthy (field input "connect")
  then connectCall refList context (field input "connect")
  else createCall context mutationState (field input "create").

Definition singleOperation (input : value) : string :=
  if truthy (field input "connect") then "connect" else "create".

(** What the to-one connect block yields for the outcome of its call. *)
Definition singleOutcome (localField : LocalField) (target : string)
    (input : value) (o : outcome) : res (option (list value)) :=
  match o with
  | Fulfilled item =>
      Ok (if truthy item then Some [field item "id"] else None)
  | Rejected reason =>
      Throw (ErrorWithErrors
               ("Unable to " ++ singleOperation input ++ " a " ++ target)
               [Entry (Rejection reason)
                      (operationPath localField (singleOperation input))])
  end.

(** The error [resolveNested] throws when validation fails with [cause]. *)
Definition invalidInput (listInfo : ListInfo) (cause : thrown) : thrown :=
  ErrorWithErrors ("Nested mutation operation invalid for " ++ targetOf listInfo)
                  [Entry cause [Prim (Str (path (localField_ listInfo)))]].

(** An item that survives the to-many filter: it has at least one key. *)
Definition actionable (item : value) : Prop :=
  exists ks, objectKeys item = Some ks /\ ks <> [].

(** The calls a to-many resolution makes, read off the input alone: the
    lookups of the disconnect selectors without an [id] (none under
    [disconnectAll]), then the lookups of the [connect] items, then the
    creations of the [create] items. *)
Definition manyCalls (refList : RefList) (context mutationState input : value)
    : list call :=
  ((if truthy (field input "disconnectAll") then []
    else map (selectorCall refList context)
             (filter (fun s => negb (carriesId s))
                     (elements (field input "disconnect"))))
   ++ map (connectCall refList context) (elements (field input "connect"))
   ++ map (createCall context mutationState) (elements (field input "create")))%list.

(** When the disconnect block of a to-one resolution has to ask the
    collaborator: there is a current value, [disconnectAll] is not set, and
    the selector given has no [id] of its own. *)
Definition needsLookup (input : value) (currentValue : prim) : bool :=
  truthy currentValue
  && negb (truthy (field input "disconnectAll"))
  && truthy (field input "disconnect")
  && negb (truthy (field (field input "disconnect") "id")).

(** The shape of an aggregate-failure entry of the to-many resolver. *)
Definition batchEntry (localField : LocalField) (e : entry) : Prop :=
  exists reason operation index,
    (operation = "connect" \/ operation = "create") /\
    e = Entry (Rejection reason)
              [Prim (Str (path localField)); Prim (Str operation);
               index_value index].

(** A call that carries the caller's arguments unchanged: the request
    context, and the list's query name (a lookup) or the shared mutation
    state (a creation). *)
Definition threaded (refList : RefList) (context mutationState : value)
    (c : call) : Prop :=
  match c with
  | ItemQuery _ context' queryName =>
      context' = context /\ queryName = itemQueryName refList
  | CreateMutation _ context' mutationState' =>
      context' = context /\ mutationState' = mutationState
  end.



(* ================================================================= *)
(** ** Example data *)

Module Example.

Definition num (z : Z) : value := Prim (Number z).

Definition byId (z : Z) : value := Obj [("id", num z)].

Definition byName (s : string) : value := Obj [("name", Prim (Str s))].

Definition noContext : value := Obj [].

Definition groupByNothing (collection : value) : res (list value * list value) :=
  Ok ([], []).

(** A collaborator: the lookup of id 6 fails with a transport error, the
    selector [{ name: 'x' }] finds item 4, id 7 is not found, any other id is
    found, and every creation yields item 99. *)
Definition answer (t : trace) (c : call) : outcome :=
  match c with
  | ItemQuery (Prim (Number 6)) _ _ => Rejected (Prim (Str "transport"))
  | ItemQuery (Prim (Number 7)) _ _ => Fulfilled (Prim Null)
  | ItemQuery (Prim (Number n)) _ _ => Fulfilled (byId n)
  | ItemQuery (Obj [("name", Prim (Str "x"))]) _ _ => Fulfilled (byId 4)
  | ItemQuery _ _ _ => Fulfilled (Prim Null)
  | CreateMutation _ _ _ => Fulfilled (byId 99)
  end.

Definition Post : RefList :=
  {| key := "Post"; itemQueryName := "Post"; respond := answer |}.

Definition postsField : LocalField := {| path := "posts" |}.

Definition posts : ListInfo :=
  {| localList := {| localKey := "User" |};
     localField_ := postsField;
     foreignList := Post |}.

End Example.

(* ================================================================= *)
(** ** Basic facts about the runtime model *)

Lemma prim_eqb_eq (p q : prim) : prim_eqb p q = true <-> p = q.
Proof.
  destruct p, q; simpl; split; intro H; try discriminate; try reflexivity.
  - apply Bool.eqb_prop in H. now subst.
  - inversion H. apply Bool.eqb_reflx.
  - apply Z.eqb_eq in H. now subst.
  - inversion H. apply Z.eqb_refl.
  - apply String.eqb_eq in H. now subst.
  - inversion H. apply String.eqb_refl.
Qed.

Lemma strict_equals_eq (p : prim) (v : value) :
  strict_equals p v = true <-> v = Prim p.
Proof.
  destruct v as [q| |]; simpl; split; intro H; try discriminate.
  - apply prim_eqb_eq in H. now subst.
  - inversion H. now apply prim_eqb_eq.
Qed.

Lemma truthy_not_nullish (v : value) : truthy v = true -> nullish v = false.
Proof. destruct v as [[]| |]; simpl; congruence. Qed.

Lemma getProp_not_nullish (v : value) (k : string) :
  nullish v = false -> getProp v k = Some (field v k).
Proof.
  unfold field. destruct v as [[]| |]; simpl; intro H; try discriminate; reflexivity.
Qed.

Lemma prop_not_nullish (v : value) (k : string) :
  nullish v = false -> prop v k = Ok (field v k).
Proof. intro H. unfold prop. now rewrite (getProp_not_nullish _ _ H). Qed.

Lemma includes_In (k : string) (ks : list string) :
  includes k ks = true <-> In k ks.
Proof.
  unfold includes. rewrite existsb_exists. split.
  - intros [x [Hin Heq]]. apply String.eqb_eq in Heq. now subst.
  - intro Hin. exists k. split; [assumption | apply String.eqb_refl].
Qed.

Lemma assoc_filter (k : string) (keys : list string) (ps : list (string * value)) :
  assoc k (filter (fun kv => includes (fst kv) keys) ps)
  = if includes k keys then assoc k ps else None.
Proof.
  induction ps as [|[k' v] ps IH]; simpl.
  - now destruct (includes k keys).
  - destruct (includes k' keys) eqn:Hk'; simpl.
    + destruct (String.eqb k k') eqn:E.
      * apply String.eqb_eq in E. subst. now rewrite Hk'.
      * exact IH.
    + rewrite IH. destruct (String.eqb k k') eqn:E; [|reflexivity].
      apply String.eqb_eq in E. subst. now rewrite Hk'.
Qed.

Lemma getProp_pick (ps : list (string * value)) (keys : list string) (k : string) :
  getProp (pick (Obj ps) keys) k
  = Some (if includes k keys then field (Obj ps) k else undefined).
Proof.
  unfold field. simpl. rewrite assoc_filter. now destruct (includes k keys).
Qed.

Lemma filterM_In {A} (p : A -> res bool) (xs ys : list A) :
  filterM p xs = Ok ys -> forall y, In y ys -> In y xs /\ p y = Ok true.
Proof.
  revert ys. induction xs as [|x xs IH]; simpl; intros ys H y Hy.
  - inversion H. subst. contradiction.
  - destruct (p x) as [b|] eqn:Hp; [|discriminate].
    destruct (filterM p xs) as [zs|] eqn:Hf; [|discriminate].
    simpl in H. inversion H. subst. clear H.
    destruct b.
    + destruct Hy as [->|Hy]; [now split; [left|]|].
      destruct (IH zs eq_refl y Hy). split; [now right | assumption].
    + destruct (IH zs eq_refl y Hy). split; [now right | assumption].
Qed.

Lemma filterM_defined {A} (p : A -> res bool) (xs ys : list A) :
  filterM p xs = Ok ys -> Forall (fun x => exists b, p x = Ok b) xs.
Proof.
  revert ys. induction xs as [|x xs IH]; simpl; intros ys H; [constructor|].
  destruct (p x) as [b|] eqn:Hp; [|discriminate].
  destruct (filterM p xs) as [zs|] eqn:Hf; [|discriminate].
  constructor; [now exists b | now apply (IH zs)].
Qed.

Lemma hasKeys_not_nullish (item : value) (b : bool) :
  hasKeys item = Ok b -> nullish item = false.
Proof. destruct item as [[]| |]; simpl; intro H; try discriminate; reflexivity. Qed.

(** What [keepMany] accepting a key other than [disconnectAll] says about the
    value stored under it. *)
Lemma keepMany_array (input : value) (k : string) :
  k <> "disconnectAll" -> keepMany input k = Ok true ->
  exists items, getProp input k = Some (Arr items) /\
                Forall (fun x => nullish x = false) items.
Proof.
  intros Hk H. unfold keepMany in H.
  destruct (String.eqb_spec k "disconnectAll") as [->|_]; [congruence|].
  unfold prop in H. destruct (getProp input k) as [v|]; [|discriminate].
  simpl in H. destruct v as [p|items|]; try discriminate.
  exists items. split; [reflexivity|].
  destruct (filterM hasKeys items) as [kept|] eqn:Hf; [|discriminate].
  apply filterM_defined in Hf.
  eapply Forall_impl; [|exact Hf].
  intros a [b Hb]. now apply hasKeys_not_nullish in Hb.
Qed.

(** The input handed to the to-many resolver has the validated shape. *)
Lemma cleaned_many (raw input : value) (localField : LocalField) (target : string) :
  cleanAndValidateInput raw true localField target = Ok input ->
  validatedMany input.
Proof.
  unfold cleanAndValidateInput, validateInput, validInputMutations.
  destruct (objectKeys raw) as [ks|] eqn:Hks; [|discriminate].
  simpl.
  destruct (filterM (keepMany raw) (intersection ks NESTED_MUTATIONS))
    as [valid|] eqn:Hf; [|discriminate].
  simpl. destruct (List.length valid =? 0)%nat; [discriminate|]. simpl.
  intro H. inversion H. subst input. clear H.
  assert (Hop : forall k, k <> "disconnectAll" -> operandMany (pick raw valid) k).
  { intros k Hk. destruct raw as [p|xs|ps].
    - left. reflexivity.
    - left. reflexivity.
    - unfold operandMany. rewrite getProp_pick.
      destruct (includes k valid) eqn:Hin; [|now left].
      apply includes_In in Hin.
      destruct (filterM_In _ _ _ Hf k Hin) as [_ Hkeep].
      destruct (keepMany_array _ _ Hk Hkeep) as [items [Hg Hall]].
      right. exists items. split; [|assumption].
      unfold field. now rewrite Hg. }
  split; [|repeat split; apply Hop; discriminate].
  destruct raw; simpl; eauto.
Qed.

(* ================================================================= *)
(** ** Batches of collaborator calls *)

Lemma bind_M_Ok {A B} (c : M A) (k : A -> M B) (t t' : trace) (a : A) :
  c t = (Ok a, t') -> (x <- c ;; k x) t = k a t'.
Proof. intro H. simpl. now rewrite H. Qed.

Lemma bind_M_Throw {A B} (c : M A) (k : A -> M B) (t t' : trace) (e : thrown) :
  c t = (Throw e, t') -> (x <- c ;; k x) t = (Throw e, t').
Proof. intro H. simpl. now rewrite H. Qed.

Lemma bind_lift_Ok {A B} (r : res A) (k : A -> M B) (t : trace) (a : A) :
  r = Ok a -> (x <- lift r ;; k x) t = k a t.
Proof. intros ->. reflexivity. Qed.

Lemma mapM_ext_M {A B} (f g : A -> M B) (xs : list A) :
  Forall (fun x => f x = g x) xs -> mapM f xs = mapM g xs.
Proof.
  induction 1 as [|x xs Hx _ IH]; simpl; [reflexivity|].
  now rewrite Hx, IH.
Qed.

(** Mapping an action that is a single call issues the calls in order and
    never throws. *)
Lemma mapM_perform {A} (refList : RefList) (f : A -> call) (xs : list A) (t : trace) :
  mapM (fun x => perform refList (f x)) xs t
  = (Ok (map snd (ask refList (map f xs) t)),
     (t ++ ask refList (map f xs) t)%list).
Proof.
  revert t. induction xs as [|x xs IH]; intro t; simpl.
  - now rewrite app_nil_r.
  - unfold perform at 1. rewrite IH. simpl.
    now rewrite <- app_assoc.
Qed.

Lemma ask_calls (refList : RefList) (calls : list call) (t : trace) :
  map fst (ask refList calls t) = calls.
Proof.
  revert t. induction calls as [|c calls IH]; intro t; simpl; [reflexivity|].
  now rewrite IH.
Qed.

Lemma mapM_idOf (xs : list value) :
  Forall (fun x => nullish x = false) xs ->
  mapM idOf xs = Ok (map (fun x => field x "id") xs).
Proof.
  induction 1 as [|x xs Hx _ IH]; simpl; [reflexivity|].
  unfold idOf at 1. rewrite (prop_not_nullish _ _ Hx). simpl.
  now rewrite IH.
Qed.

Lemma failures_indexed (path : list value) (results : list outcome) (n : nat) :
  map (fun si => Entry (Rejection (settledReason (fst si)))
                       (path ++ [index_value (snd si)])%list)
      (filter (fun si => isRejected (fst si))
              (combine results (seq n (List.length results))))
  = failuresFrom path n results.
Proof.
  revert n. induction results as [|[v|r] results IH]; intro n; simpl.
  - reflexivity.
  - apply IH.
  - now rewrite IH.
Qed.

Lemma failuresFrom_length (path : list value) (n : nat) (outcomes : list outcome) :
  List.length (failuresFrom path n outcomes)
  = List.length (filter isRejected outcomes).
Proof.
  revert n. induction outcomes as [|[v|r] outcomes IH]; intro n; simpl; auto.
Qed.

Lemma failuresFrom_nil (path : list value) (n : nat) (outcomes : list outcome) :
  failuresFrom path n outcomes = [] <-> existsb isRejected outcomes = false.
Proof.
  revert n. induction outcomes as [|[v|r] outcomes IH]; intro n; simpl.
  - tauto.
  - apply IH.
  - split; discriminate.
Qed.

(** [_runActions] for an action that is a single call per item. *)
Lemma runActions_perform (refList : RefList) (f : value -> call)
    (action : value -> M outcome) (targets : value) (path : list value) (t : trace) :
  targets = undefined \/ (exists xs, targets = Arr xs) ->
  Forall (fun x => action x = perform refList (f x)) (elements targets) ->
  let events := ask refList (map f (elements targets)) t in
  let errors := failuresFrom path 0 (map snd events) in
  _runActions action targets path t
  = (Ok (if (List.length errors =? 0)%nat
         then map settledValue (map snd events) else [],
         errors),
     (t ++ events)%list).
Proof.
  intros Hshape Hact events errors.
  assert (Hmap : mapAction action (or_else targets (Arr [])) t
                 = (Ok (map snd events), (t ++ events)%list)).
  { destruct Hshape as [->|[xs ->]].
    - subst events. simpl. now rewrite app_nil_r.
    - simpl. simpl in Hact. rewrite (mapM_ext_M _ _ _ Hact).
      apply mapM_perform. }
  unfold _runActions. rewrite (bind_M_Ok _ _ _ _ _ Hmap).
  unfold pSettle, withIndex. rewrite failures_indexed. reflexivity.
Qed.

(* ================================================================= *)
(** ** The to-many resolver, block by block *)

Section ManyFacts.

Variable refList : RefList.
Variable context : value.
Variable localField : LocalField.
Variable target : string.
Variable mutationState : value.
Variable groupByOther : value -> res (list value * list value).

Lemma lookupId_perform (where_ : value) :
  nullish where_ = false ->
  lookupId refList context where_
  = perform refList (connectCall refList context where_).
Proof.
  intro H. unfold lookupId, connectCall, itemQuery.
  now rewrite (prop_not_nullish _ _ H).
Qed.

Lemma groupBy_array (xs : list value) :
  Forall (fun x => nullish x = false) xs ->
  groupBy groupByOther (Arr xs)
  = Ok (filter carriesId xs, filter (fun x => negb (carriesId x)) xs).
Proof.
  intro H. unfold groupBy.
  assert (E : mapM (fun x => id <- idOf x ;; ret (truthy id, x)) xs
              = Ok (map (fun x => (carriesId x, x)) xs)).
  { induction H as [|x xs Hx _ IH]; simpl; [reflexivity|].
    unfold idOf at 1. rewrite (prop_not_nullish _ _ Hx).
    simpl in IH |- *. now rewrite IH. }
  rewrite E. simpl. f_equal. f_equal.
  - clear. induction xs as [|x xs IH]; simpl; [reflexivity|].
    destruct (carriesId x); simpl; now rewrite IH.
  - clear. induction xs as [|x xs IH]; simpl; [reflexivity|].
    destruct (carriesId x); simpl; now rewrite IH.
Qed.

Lemma directIds_filter (xs : list value) :
  map (fun x => field x "id") (filter carriesId xs) = directIds xs.
Proof.
  unfold directIds. induction xs as [|x xs IH]; simpl; [reflexivity|].
  destruct (carriesId x); simpl; now rewrite IH.
Qed.

Lemma foundIds_filter (outcomes : list outcome) :
  mapM idOf (filter truthy (map settledValue (filter isFulfilled outcomes)))
  = Ok (foundIds outcomes).
Proof.
  unfold foundIds. induction outcomes as [|[v|r] os IH]; simpl.
  - reflexivity.
  - destruct (truthy v) eqn:Hv; simpl; [|exact IH].
    unfold idOf at 1.
    rewrite (prop_not_nullish _ _ (truthy_not_nullish _ Hv)). simpl.
    now rewrite IH.
  - exact IH.
Qed.

Lemma foundIds_app (xs ys : list outcome) :
  foundIds (xs ++ ys) = (foundIds xs ++ foundIds ys)%list.
Proof. unfold foundIds. apply flat_map_app. Qed.

(** The disconnect block on a list of selectors. *)
Lemma manyDisconnections_selectors (ps : list (string * value))
    (selectors currentValue : list value) (t : trace) :
  truthy (field (Obj ps) "disconnectAll") = false ->
  field (Obj ps) "disconnect" = Arr selectors ->
  Forall (fun x => nullish x = false) selectors ->
  let events :=
    ask refList
        (map (selectorCall refList context)
             (filter (fun s => negb (carriesId s)) selectors)) t in
  manyDisconnections refList context groupByOther (Obj ps) currentValue t
  = (Ok (directIds selectors ++ foundIds (map snd events))%list,
     (t ++ events)%list).
Proof.
  intros Hall Hsel Hnn events. unfold manyDisconnections.
  rewrite (bind_lift_Ok _ _ _ _ (prop_not_nullish (Obj ps) "disconnectAll" eq_refl)).
  rewrite Hall.
  rewrite (bind_lift_Ok _ _ _ _ (prop_not_nullish (Obj ps) "disconnect" eq_refl)).
  rewrite Hsel. cbn [truthy].
  rewrite (bind_lift_Ok _ _ _ _ (groupBy_array _ Hnn)).
  assert (Hwith : Forall (fun x => nullish x = false) (filter carriesId selectors)).
  { apply Forall_forall. intros x Hx. apply filter_In in Hx.
    rewrite Forall_forall in Hnn. apply Hnn, Hx. }
  rewrite (bind_lift_Ok _ _ _ _ (mapM_idOf _ Hwith)).
  rewrite directIds_filter.
  assert (Hlook : mapM (lookupSelector refList context)
                       (filter (fun s => negb (carriesId s)) selectors) t
                  = (Ok (map snd events), (t ++ events)%list)).
  { apply (mapM_perform refList (selectorCall refList context)). }
  rewrite (bind_M_Ok _ _ _ _ _ Hlook).
  unfold pSettle.
  rewrite (bind_lift_Ok _ _ _ _ (foundIds_filter (map snd events))).
  reflexivity.
Qed.

(** The disconnect block never throws on a validated input. *)
Lemma manyDisconnections_total (input : value) (currentValue : list value) (t : trace) :
  validatedMany input ->
  exists disconnectIds t1,
    manyDisconnections refList context groupByOther input currentValue t
    = (Ok disconnectIds, t1).
Proof.
  intros [[ps ->] [_ [_ Hd]]].
  destruct (truthy (field (Obj ps) "disconnectAll")) eqn:Hall.
  - exists currentValue, t. unfold manyDisconnections.
    rewrite (bind_lift_Ok _ _ _ _ (prop_not_nullish (Obj ps) "disconnectAll" eq_refl)).
    now rewrite Hall.
  - destruct Hd as [Hd|[sels [Hd Hnn]]].
    + exists [], t. unfold manyDisconnections.
      rewrite (bind_lift_Ok _ _ _ _ (prop_not_nullish (Obj ps) "disconnectAll" eq_refl)).
      rewrite Hall.
      rewrite (bind_lift_Ok _ _ _ _ (prop_not_nullish (Obj ps) "disconnect" eq_refl)).
      unfold field. now rewrite Hd.
    + assert (Hf : field (Obj ps) "disconnect" = Arr sels)
        by (unfold field; now rewrite Hd).
      pose proof (manyDisconnections_selectors ps sels currentValue t Hall Hf Hnn) as E.
      cbv zeta in E. eauto.
Qed.

(** With [disconnectAll] set the disconnect block is the current value, and
    no call is made. *)
Lemma manyDisconnections_all (ps : list (string * value))
    (currentValue : list value) (t : trace) :
  truthy (field (Obj ps) "disconnectAll") = true ->
  manyDisconnections refList context groupByOther (Obj ps) currentValue t
  = (Ok currentValue, t).
Proof.
  intro Hall. unfold manyDisconnections.
  rewrite (bind_lift_Ok _ _ _ _ (prop_not_nullish (Obj ps) "disconnectAll" eq_refl)).
  now rewrite Hall.
Qed.

End ManyFacts.

Section ManyConnections.

Variable refList : RefList.
Variable context : value.
Variable localField : LocalField.
Variable target : string.
Variable mutationState : value.

Lemma operandMany_field (ps : list (string * value)) (k : string) :
  operandMany (Obj ps) k ->
  field (Obj ps) k = undefined \/
  exists xs, field (Obj ps) k = Arr xs /\ Forall (fun x => nullish x = false) xs.
Proof.
  unfold field. intros [H|[xs [H Hnn]]]; rewrite H; [now left|].
  right. now exists xs.
Qed.

Lemma mapM_idOf_truthy (xs : list value) :
  mapM idOf (filter truthy xs)
  = Ok (map (fun x => field x "id") (filter truthy xs)).
Proof.
  apply mapM_idOf. apply Forall_forall. intros x Hx.
  apply filter_In in Hx. now apply truthy_not_nullish.
Qed.

Lemma all_fulfilled (outcomes : list outcome) :
  existsb isRejected outcomes = false -> filter isFulfilled outcomes = outcomes.
Proof.
  induction outcomes as [|[v|r] os IH]; simpl; intro H;
    [reflexivity | now rewrite IH | discriminate].
Qed.

Lemma foundIds_values (outcomes : list outcome) :
  existsb isRejected outcomes = false ->
  map (fun x => field x "id") (filter truthy (map settledValue outcomes))
  = foundIds outcomes.
Proof.
  intro H. pose proof (foundIds_filter outcomes) as E.
  rewrite (all_fulfilled _ H), mapM_idOf_truthy in E. now inversion E.
Qed.

(** The connect block on a validated input: both batches are issued, in
    order, and the block throws exactly when some outcome is a rejection. *)
Lemma manyConnections_spec (input : value) (t : trace) :
  validatedMany input ->
  let connects :=
    ask refList (map (connectCall refList context)
                     (elements (field input "connect"))) t in
  let creates :=
    ask refList (map (createCall context mutationState)
                     (elements (field input "create"))) (t ++ connects)%list in
  let failures :=
    (failuresFrom (operationPath localField "connect") 0 (map snd connects)
     ++ failuresFrom (operationPath localField "create") 0 (map snd creates))%list in
  manyConnections refList context localField target mutationState input t
  = (match failures with
     | [] => Ok (foundIds (map snd (connects ++ creates)%list))
     | _ :: _ =>
         Throw (ErrorWithErrors (aggregateMessage target (List.length failures)) failures)
     end,
     ((t ++ connects) ++ creates)%list).
Proof.
  intros [[ps ->] [Hcr [Hco _]]] connects creates failures.
  apply operandMany_field in Hcr, Hco.
  unfold manyConnections.
  rewrite (bind_lift_Ok _ _ _ _ (prop_not_nullish (Obj ps) "connect" eq_refl)).
  rewrite (bind_lift_Ok _ _ _ _ (prop_not_nullish (Obj ps) "create" eq_refl)).
  destruct (truthy (or_else (field (Obj ps) "connect") (field (Obj ps) "create")))
    eqn:Hguard.
  - assert (Hrun1 := runActions_perform refList (connectCall refList context)
                       (lookupId refList context) (field (Obj ps) "connect")
                       (operationPath localField "connect") t).
    assert (Hrun2 := runActions_perform refList (createCall context mutationState)
                       (createItem refList context mutationState)
                       (field (Obj ps) "create")
                       (operationPath localField "create") (t ++ connects)%list).
    cbv zeta in Hrun1, Hrun2.
    assert (Hrun1' := Hrun1).
    clear Hrun1. rename Hrun1' into Hrun1.
    specialize (Hrun1 ltac:(destruct Hco as [->|[xs [-> _]]]; eauto)).
    specialize (Hrun2 ltac:(destruct Hcr as [->|[xs [-> _]]]; eauto)).
    assert (Ha1 : Forall (fun x => lookupId refList context x
                                   = perform refList (connectCall refList context x))
                         (elements (field (Obj ps) "connect"))).
    { destruct Hco as [->|[xs [-> Hnn]]]; simpl; [constructor|].
      eapply Forall_impl; [|exact Hnn].
      intros a Ha. now apply lookupId_perform. }
    assert (Ha2 : Forall (fun x => createItem refList context mutationState x
                                   = perform refList (createCall context mutationState x))
                         (elements (field (Obj ps) "create"))).
    { apply Forall_forall. reflexivity. }
    specialize (Hrun1 Ha1). specialize (Hrun2 Ha2).
    fold connects in Hrun1. fold connects creates in Hrun2.
    rewrite (bind_M_Ok _ _ _ _ _ Hrun1).
    rewrite (bind_M_Ok _ _ _ _ _ Hrun2).
    rewrite mapM_idOf_truthy.
    rewrite (bind_lift_Ok _ _ _ _ eq_refl).
    destruct failures as [|e es] eqn:EF.
    + subst failures. apply app_eq_nil in EF. destruct EF as [E1 E2].
      rewrite E1, E2. cbn [List.length Nat.eqb negb app].
      apply failuresFrom_nil in E1, E2.
      rewrite map_app, foundIds_app.
      rewrite <- (foundIds_values _ E1), <- (foundIds_values _ E2).
      now rewrite filter_app, map_app.
    + subst failures. rewrite EF. cbn [List.length Nat.eqb negb].
      reflexivity.
  - assert (field (Obj ps) "connect" = undefined /\ field (Obj ps) "create" = undefined)
      as [Eco Ecr].
    { destruct Hco as [Eco|[xs [Eco _]]]; rewrite Eco in Hguard; [|discriminate].
      split; [assumption|].
      destruct Hcr as [Ecr|[ys [Ecr _]]]; rewrite Ecr in Hguard; [assumption|discriminate]. }
    subst failures creates connects. rewrite Eco, Ecr. simpl.
    now rewrite !app_nil_r.
Qed.

End ManyConnections.

(* ================================================================= *)
(** ** The to-one resolver, block by block *)

Section SingleFacts.

Variable refList : RefList.
Variable context : value.
Variable localField : LocalField.
Variable target : string.
Variable mutationState : value.

Lemma or_else_truthy_right (a b : value) :
  truthy (or_else a b) = true -> truthy b = false -> truthy a = true.
Proof. unfold or_else. destruct (truthy a) eqn:E; congruence. Qed.

(** Resolving the disconnect target never throws: a failed lookup, a missing
    item and an unprintable [id] are all swallowed by the [catch]. *)
Lemma resolveIdToDisconnect_spec (ps : list (string * value))
    (currentValue : prim) (t : trace) :
  truthy (or_else (field (Obj ps) "disconnect") (field (Obj ps) "disconnectAll")) = true ->
  resolveIdToDisconnect refList context (Obj ps) currentValue t
  = (Ok (fst (disconnectTarget refList context (Obj ps) currentValue t)),
     snd (disconnectTarget refList context (Obj ps) currentValue t)).
Proof.
  intro Hguard. unfold resolveIdToDisconnect, disconnectTarget.
  rewrite (bind_lift_Ok _ _ _ _ (prop_not_nullish (Obj ps) "disconnectAll" eq_refl)).
  destruct (truthy (field (Obj ps) "disconnectAll")) eqn:Hall; [reflexivity|].
  rewrite (bind_lift_Ok _ _ _ _ (prop_not_nullish (Obj ps) "disconnect" eq_refl)).
  pose proof (or_else_truthy_right _ _ Hguard Hall) as Hsel.
  rewrite (bind_lift_Ok _ _ _ _
             (prop_not_nullish _ "id" (truthy_not_nullish _ Hsel))).
  cbv zeta.
  destruct (truthy (field (field (Obj ps) "disconnect") "id")); [reflexivity|].
  unfold try_catch, lookupSelector, itemQuery, selectorCall.
  cbn [bind M_monad perform].
  destruct (respond refList t
              (ItemQuery (field (Obj ps) "disconnect") context (itemQueryName refList)))
    as [item|reason]; cbn; [|reflexivity].
  unfold prop. destruct (getProp item "id") as [id|]; cbn; [|reflexivity].
  destruct (toString id); reflexivity.
Qed.

Lemma singleDisconnection_spec (ps : list (string * value))
    (currentValue : prim) (t : trace) :
  singleDisconnection refList context (Obj ps) currentValue t
  = if truthy (or_else (field (Obj ps) "disconnect") (field (Obj ps) "disconnectAll"))
       && truthy currentValue
    then
      let target_ := disconnectTarget refList context (Obj ps) currentValue t in
      (Ok (if strict_equals currentValue (fst target_)
           then Some [fst target_] else None),
       snd target_)
    else (Ok None, t).
Proof.
  unfold singleDisconnection.
  rewrite (bind_lift_Ok _ _ _ _ (prop_not_nullish (Obj ps) "disconnect" eq_refl)).
  rewrite (bind_lift_Ok _ _ _ _ (prop_not_nullish (Obj ps) "disconnectAll" eq_refl)).
  destruct (truthy (or_else (field (Obj ps) "disconnect")
                            (field (Obj ps) "disconnectAll"))) eqn:Hguard;
    [|reflexivity].
  destruct (truthy currentValue); [|reflexivity].
  cbn [andb]. cbv zeta.
  rewrite (bind_M_Ok _ _ _ _ _ (resolveIdToDisconnect_spec ps currentValue t Hguard)).
  now destruct (strict_equals currentValue _).
Qed.

Lemma singleDisconnection_total (ps : list (string * value))
    (currentValue : prim) (t : trace) :
  exists set t1,
    singleDisconnection refList context (Obj ps) currentValue t = (Ok set, t1).
Proof.
  rewrite singleDisconnection_spec.
  destruct (_ && _); cbv zeta; eauto.
Qed.

(** The connect block makes exactly one call and yields what [singleOutcome]
    says of its outcome. *)
Lemma singleConnection_spec (ps : list (string * value)) (t : trace) :
  truthy (or_else (field (Obj ps) "connect") (field (Obj ps) "create")) = true ->
  let c := singleCall refList context mutationState (Obj ps) in
  let o := respond refList t c in
  singleConnection refList context localField target mutationState (Obj ps) t
  = (singleOutcome localField target (Obj ps) o, (t ++ [(c, o)])%list).
Proof.
  intros Hguard c o. unfold singleConnection.
  rewrite (bind_lift_Ok _ _ _ _ (prop_not_nullish (Obj ps) "connect" eq_refl)).
  rewrite (bind_lift_Ok _ _ _ _ (prop_not_nullish (Obj ps) "create" eq_refl)).
  rewrite Hguard.
  subst o c. unfold singleCall, singleOutcome, singleOperation.
  destruct (truthy (field (Obj ps) "connect")) eqn:Hco.
  - unfold try_catch. cbn [bind M_monad].
    rewrite (prop_not_nullish _ "id" (truthy_not_nullish _ Hco)).
    unfold lift at 1. unfold itemQuery, perform, connectCall.
    destruct (respond refList t _) as [item|reason]; cbn [await ret M_monad throw].
    + destruct (truthy item) eqn:Hitem; [|reflexivity].
      now rewrite (prop_not_nullish _ "id" (truthy_not_nullish _ Hitem)).
    + reflexivity.
  - unfold try_catch. cbn [bind M_monad].
    unfold createMutation, perform, createCall.
    destruct (respond refList t _) as [item|reason]; cbn [await ret M_monad throw].
    + destruct (truthy item) eqn:Hitem; [|reflexivity].
      now rewrite (prop_not_nullish _ "id" (truthy_not_nullish _ Hitem)).
    + reflexivity.
Qed.

Lemma singleConnection_absent (ps : list (string * value)) (t : trace) :
  truthy (or_else (field (Obj ps) "connect") (field (Obj ps) "create")) = false ->
  singleConnection refList context localField target mutationState (Obj ps) t
  = (Ok None, t).
Proof.
  intro Hguard. unfold singleConnection.
  rewrite (bind_lift_Ok _ _ _ _ (prop_not_nullish (Obj ps) "connect" eq_refl)).
  rewrite (bind_lift_Ok _ _ _ _ (prop_not_nullish (Obj ps) "create" eq_refl)).
  now rewrite Hguard.
Qed.

End SingleFacts.

(* ================================================================= *)
(** ** Properties of the resolvers *)

Lemma existsb_rejected_failures (p1 p2 : list value) (xs ys : list outcome) :
  existsb isRejected (xs ++ ys) = true ->
  (failuresFrom p1 0 xs ++ failuresFrom p2 0 ys)%list <> [].
Proof.
  intros H E. apply app_eq_nil in E. destruct E as [E1 E2].
  apply failuresFrom_nil in E1, E2.
  rewrite existsb_app, E1, E2 in H. discriminate.
Qed.

Lemma failures_count (p1 p2 : list value) (xs ys : list outcome) :
  List.length (failuresFrom p1 0 xs ++ failuresFrom p2 0 ys)%list
  = List.length (filter isRejected (xs ++ ys)).
Proof.
  now rewrite filter_app, !length_app, !failuresFrom_length.
Qed.

(** C1. When at least one connect lookup or create of a to-many resolution is
    rejected, [resolveNestedMany] throws the error "Unable to create and/or
    connect N <target>", N being the number of rejections, whose [errors] are
    all the per-operation failures (connect failures first, then create
    failures); no result, hence no partial connect set, is returned.  The
    disconnect block has been evaluated before, on its own, and did not
    throw. *)
Theorem resolveNestedMany_aggregate_failure
    (refList : RefList) (context : value) (localField : LocalField)
    (target : string) (mutationState : value)
    (groupByOther : value -> res (list value * list value))
    (raw input : value) (currentValue : list value) (t : trace) :
  cleanAndValidateInput raw true localField target = Ok input ->
  let t1 :=
    snd (manyDisconnections refList context groupByOther input currentValue t) in
  let connects :=
    ask refList (map (connectCall refList context)
                     (elements (field input "connect"))) t1 in
  let creates :=
    ask refList (map (createCall context mutationState)
                     (elements (field input "create"))) (t1 ++ connects)%list in
  let outcomes := map snd (connects ++ creates)%list in
  let failures :=
    (failuresFrom (operationPath localField "connect") 0 (map snd connects)
     ++ failuresFrom (operationPath localField "create") 0 (map snd creates))%list in
  existsb isRejected outcomes = true ->
  (exists disconnectIds,
      manyDisconnections refList context groupByOther input currentValue t
      = (Ok disconnectIds, t1)) /\
  List.length failures = List.length (filter isRejected outcomes) /\
  resolveNestedMany refList context localField target mutationState groupByOther
    input currentValue t
  = (Throw (ErrorWithErrors
              ("Unable to create and/or connect "
               ++ string_of_nat (List.length failures) ++ " " ++ target)
              failures),
     ((t1 ++ connects) ++ creates)%list).
Proof.
  intros Hclean t1 connects creates outcomes failures Hfail.
  pose proof (cleaned_many _ _ _ _ Hclean) as Hval.
  destruct (manyDisconnections_total refList context groupByOther
              input currentValue t Hval) as [d [t1' Hd]].
  assert (Et : t1 = t1') by (subst t1; now rewrite Hd).
  subst outcomes. rewrite map_app in Hfail.
  split; [exists d; now rewrite Et|].
  split; [subst failures; rewrite map_app; apply failures_count|].
  unfold resolveNestedMany. rewrite (bind_M_Ok _ _ _ _ _ Hd).
  pose proof (manyConnections_spec refList context localField target
                mutationState input t1' Hval) as Hc.
  cbv zeta in Hc. rewrite <- Et in Hc.
  fold connects in Hc. fold creates in Hc. fold failures in Hc.
  pose proof (existsb_rejected_failures
                (operationPath localField "connect")
                (operationPath localField "create") _ _ Hfail) as Hne.
  fold failures in Hne.
  rewrite <- Et.
  destruct failures as [|e es]; [congruence|].
  now rewrite (bind_M_Throw _ _ _ _ _ Hc).
Qed.

Lemma resolveNestedMany_aggregate_failure_witness :
  resolveNestedMany Example.Post Example.noContext Example.postsField
    "User.posts<Post>" Example.noContext Example.groupByNothing
    (Obj [("connect", Arr [Example.byId 5; Example.byId 6])]) [] []
  = (Throw (ErrorWithErrors
              "Unable to create and/or connect 1 User.posts<Post>"
              [Entry (Rejection (Prim (Str "transport")))
                     [Prim (Str "posts"); Prim (Str "connect"); Example.num 1]]),
     [(ItemQuery (Example.num 5) Example.noContext "Post", Fulfilled (Example.byId 5));
      (ItemQuery (Example.num 6) Example.noContext "Post",
       Rejected (Prim (Str "transport")))]).
Proof.
  exact (proj2 (proj2 (resolveNestedMany_aggregate_failure
           Example.Post Example.noContext Example.postsField "User.posts<Post>"
           Example.noContext Example.groupByNothing
           (Obj [("connect", Arr [Example.byId 5; Example.byId 6]); ("unknown", Example.num 0)])
           (Obj [("connect", Arr [Example.byId 5; Example.byId 6])]) [] []
           eq_refl eq_refl))).
Defined.

(** The entries of a batch sit at the rejected positions, in increasing
    order, one per position. *)
Lemma failuresFrom_positions (path : list value) (outcomes : list outcome) (n : nat) :
  exists positions,
    StronglySorted lt positions /\
    (forall i, In i positions <->
               n <= i /\ exists r, nth_error outcomes (i - n) = Some (Rejected r)) /\
    failuresFrom path n outcomes
    = map (fun i => Entry (Rejection (settledReason
                                        (nth (i - n) outcomes (Fulfilled undefined))))
                          (path ++ [index_value i])%list) positions.
Proof.
  revert n. induction outcomes as [|o rest IH]; intro n.
  - exists []. split; [constructor|]. split; [|reflexivity].
    intro i. split; [contradiction|].
    intros [_ [r H]]. destruct (i - n); discriminate.
  - destruct (IH (S n)) as [ps [Hsorted [Hin Heq]]].
    assert (Hshift : forall i, S n <= i ->
              nth_error (o :: rest) (i - n) = nth_error rest (i - S n)).
    { intros i Hi. replace (i - n) with (S (i - S n)) by lia. reflexivity. }
    assert (Hmap : failuresFrom path (S n) rest
                   = map (fun i => Entry (Rejection (settledReason
                                     (nth (i - n) (o :: rest) (Fulfilled undefined))))
                                  (path ++ [index_value i])%list) ps).
    { rewrite Heq. apply map_ext_in. intros i Hi.
      apply Hin in Hi. destruct Hi as [Hi _].
      replace (i - n) with (S (i - S n)) by lia. reflexivity. }
    destruct o as [v|r].
    + exists ps. split; [assumption|]. split; [|exact Hmap].
      intro i. rewrite Hin. split.
      * intros [Hi [r Hr]]. split; [lia|]. exists r. now rewrite Hshift.
      * intros [Hi [r Hr]].
        destruct (Nat.eq_dec i n) as [->|Hne].
        -- rewrite Nat.sub_diag in Hr. discriminate.
        -- split; [lia|]. exists r. rewrite <- Hshift by lia. exact Hr.
    + exists (n :: ps). split; [|split].
      * constructor; [assumption|].
        apply Forall_forall. intros i Hi. apply Hin in Hi. lia.
      * intro i. simpl. rewrite Hin. split.
        -- intros [<-|[Hi [r' Hr]]].
           ++ split; [lia|]. exists r. now rewrite Nat.sub_diag.
           ++ split; [lia|]. exists r'. now rewrite Hshift.
        -- intros [Hi [r' Hr]].
           destruct (Nat.eq_dec i n) as [->|Hne]; [now left|].
           right. split; [lia|]. exists r'. rewrite <- Hshift by lia. exact Hr.
      * simpl. rewrite Nat.sub_diag. simpl. now rewrite Hmap.
Qed.

Lemma ask_nth (refList : RefList) (callOf : value -> call) (items : list value)
    (t : trace) (i : nat) (reason : value) :
  nth_error (map snd (ask refList (map callOf items) t)) i = Some (Rejected reason)
  <-> exists item,
        nth_error items i = Some item /\
        nth_error (ask refList (map callOf items) t) i
        = Some (callOf item, Rejected reason).
Proof.
  pose proof (ask_calls refList (map callOf items) t) as Hcalls.
  remember (ask refList (map callOf items) t) as events.
  assert (Hfst : nth_error (map fst events) i = option_map callOf (nth_error items i))
    by (rewrite Hcalls; apply nth_error_map).
  rewrite !nth_error_map in *.
  destruct (nth_error events i) as [[c o]|]; simpl in *.
  - destruct (nth_error items i) as [item|]; simpl in Hfst; [|discriminate].
    inversion Hfst. subst c. split.
    + intro H. inversion H. subst o. now exists item.
    + intros [item' [Hi He]]. inversion Hi. subst item'. now inversion He.
  - split; [discriminate|]. intros [item [_ H]]. discriminate.
Qed.

Lemma batchReport_perform (refList : RefList) (action : value -> M outcome)
    (callOf : value -> call) (targets : value) (path : list value) (t : trace) :
  targets = undefined \/ (exists xs, targets = Arr xs) ->
  Forall (fun x => action x = perform refList (callOf x)) (elements targets) ->
  batchReport refList action callOf targets path t.
Proof.
  intros Hshape Hact. unfold batchReport. cbv zeta.
  pose proof (runActions_perform refList callOf action targets path t Hshape Hact)
    as Hrun. cbv zeta in Hrun.
  destruct (failuresFrom_positions path
              (map snd (ask refList (map callOf (elements targets)) t)) 0)
    as [positions [Hsorted [Hin Heq]]].
  eexists. eexists. exists positions.
  split; [exact Hrun|]. split; [assumption|]. split.
  - intro i. rewrite Hin. rewrite Nat.sub_0_r. split.
    + intros [_ [r Hr]]. apply ask_nth in Hr. destruct Hr as [item [Hi He]].
      now exists item, r.
    + intros [item [r [Hi He]]]. split; [lia|]. exists r.
      apply ask_nth. now exists item.
  - rewrite Heq. apply map_ext. intro i. unfold entryAt.
    now rewrite Nat.sub_0_r.
Qed.

(** The example of the specification: in the connect list [[A, B, C]] the
    lookup of [B] fails, and the one entry reported carries index 1. *)
Example runActions_second_of_three :
  _runActions (lookupId Example.Post Example.noContext)
    (Arr [Example.byId 5; Example.byId 6; Example.byId 8])
    (operationPath Example.postsField "connect") []
  = (Ok ([], [Entry (Rejection (Prim (Str "transport")))
                    [Prim (Str "posts"); Prim (Str "connect"); Example.num 1]]),
     [(ItemQuery (Example.num 5) Example.noContext "Post", Fulfilled (Example.byId 5));
      (ItemQuery (Example.num 6) Example.noContext "Post",
       Rejected (Prim (Str "transport")));
      (ItemQuery (Example.num 8) Example.noContext "Post", Fulfilled (Example.byId 8))]).
Proof. reflexivity. Qed.

(** C3. On a to-many input with a disconnect list and [disconnectAll] unset,
    the disconnect block yields the identifiers of the selectors carrying an
    [id], taken as they are, followed by the identifiers of the items found
    by looking up, through the collaborator, exactly the selectors without an
    [id]; rejected lookups and null results contribute nothing.  The current
    value plays no part, the block never throws, and the set is the one in
    any result [resolveNestedMany] returns. *)
Theorem manyDisconnections_by_selectors
    (refList : RefList) (context : value) (localField : LocalField)
    (target : string) (mutationState : value)
    (groupByOther : value -> res (list value * list value))
    (raw input : value) (selectors currentValue : list value) (t : trace) :
  cleanAndValidateInput raw true localField target = Ok input ->
  truthy (field input "disconnectAll") = false ->
  field input "disconnect" = Arr selectors ->
  let lookedUp := filter (fun s => negb (carriesId s)) selectors in
  let events := ask refList (map (selectorCall refList context) lookedUp) t in
  let disconnectIds := (directIds selectors ++ foundIds (map snd events))%list in
  manyDisconnections refList context groupByOther input currentValue t
  = (Ok disconnectIds, (t ++ events)%list) /\
  map fst events = map (selectorCall refList context) lookedUp /\
  (forall otherValue,
      manyDisconnections refList context groupByOther input otherValue t
      = manyDisconnections refList context groupByOther input currentValue t) /\
  (forall r t',
      resolveNestedMany refList context localField target mutationState
        groupByOther input currentValue t = (Ok r, t') ->
      disconnect r = Some disconnectIds).
Proof.
  intros Hclean Hall Hsel lookedUp events disconnectIds.
  destruct (cleaned_many _ _ _ _ Hclean) as [[ps ->] [_ [_ Hd]]].
  apply operandMany_field in Hd.
  assert (Hnn : Forall (fun x => nullish x = false) selectors).
  { destruct Hd as [Hd|[xs [Hd Hnn]]]; rewrite Hd in Hsel; [discriminate|].
    now inversion Hsel; subst. }
  assert (Hspec : forall cv,
             manyDisconnections refList context groupByOther (Obj ps) cv t
             = (Ok disconnectIds, (t ++ events)%list)).
  { intro cv. apply manyDisconnections_selectors; assumption. }
  split; [apply Hspec|]. split; [apply ask_calls|]. split.
  - intro other. now rewrite !Hspec.
  - intros r t' Hr. unfold resolveNestedMany in Hr.
    rewrite (bind_M_Ok _ _ _ _ _ (Hspec currentValue)) in Hr.
    cbn [bind M_monad] in Hr.
    destruct (manyConnections _ _ _ _ _ _ _) as [[ids_|e] t2]; [|discriminate].
    cbn in Hr. now inversion Hr.
Qed.

Lemma manyDisconnections_by_selectors_witness :
  manyDisconnections Example.Post Example.noContext Example.groupByNothing
    (Obj [("disconnect", Arr [Example.byId 2; Example.byName "x"; Example.byName "y"])])
    [Example.num 1; Example.num 2; Example.num 3] []
  = (Ok [Example.num 2; Example.num 4],
     [(ItemQuery (Example.byName "x") Example.noContext "Post",
       Fulfilled (Example.byId 4));
      (ItemQuery (Example.byName "y") Example.noContext "Post",
       Fulfilled (Prim Null))]).
Proof.
  exact (proj1 (manyDisconnections_by_selectors
           Example.Post Example.noContext Example.postsField "User.posts<Post>"
           Example.noContext Example.groupByNothing
           (Obj [("disconnect",
                  Arr [Example.byId 2; Example.byName "x"; Example.byName "y"])])
           (Obj [("disconnect",
                  Arr [Example.byId 2; Example.byName "x"; Example.byName "y"])])
           [Example.byId 2; Example.byName "x"; Example.byName "y"]
           [Example.num 1; Example.num 2; Example.num 3] []
           eq_refl eq_refl eq_refl)).
Defined.

Section Deltas.

Variable refList : RefList.
Variable context : value.
Variable localField : LocalField.
Variable target : string.
Variable mutationState : value.
Variable groupByOther : value -> res (list value * list value).

Lemma field_pick (ps : list (string * value)) (keys : list string) (k : string) :
  field (pick (Obj ps) keys) k
  = if includes k keys then field (Obj ps) k else undefined.
Proof. unfold field at 1. now rewrite getProp_pick. Qed.

Lemma manyDisconnections_none (ps : list (string * value))
    (currentValue : list value) (t : trace) :
  truthy (or_else (field (Obj ps) "disconnect") (field (Obj ps) "disconnectAll")) = false ->
  manyDisconnections refList context groupByOther (Obj ps) currentValue t
  = (Ok [], t).
Proof.
  intro H. unfold or_else in H.
  destruct (truthy (field (Obj ps) "disconnect")) eqn:Hd; [congruence|].
  unfold manyDisconnections.
  rewrite (bind_lift_Ok _ _ _ _ (prop_not_nullish (Obj ps) "disconnectAll" eq_refl)).
  rewrite H.
  rewrite (bind_lift_Ok _ _ _ _ (prop_not_nullish (Obj ps) "disconnect" eq_refl)).
  now rewrite Hd.
Qed.

Lemma manyConnections_none (ps : list (string * value)) (t : trace) :
  truthy (or_else (field (Obj ps) "connect") (field (Obj ps) "create")) = false ->
  manyConnections refList context localField target mutationState (Obj ps) t
  = (Ok [], t).
Proof.
  intro H. unfold manyConnections.
  rewrite (bind_lift_Ok _ _ _ _ (prop_not_nullish (Obj ps) "connect" eq_refl)).
  rewrite (bind_lift_Ok _ _ _ _ (prop_not_nullish (Obj ps) "create" eq_refl)).
  now rewrite H.
Qed.

Lemma resolveNestedMany_returns (input : value) (currentValue : list value)
    (t t' : trace) (r : ResolutionResult) :
  resolveNestedMany refList context localField target mutationState groupByOther
    input currentValue t = (Ok r, t') ->
  exists disconnectIds t1 connectIds,
    manyDisconnections refList context groupByOther input currentValue t
    = (Ok disconnectIds, t1) /\
    manyConnections refList context localField target mutationState input t1
    = (Ok connectIds, t') /\
    r = {| disconnect := Some disconnectIds; connect := Some connectIds |}.
Proof.
  intro H. unfold resolveNestedMany in H.
  destruct (manyDisconnections refList context groupByOther input currentValue t)
    as [[d|e] t1] eqn:Hd.
  - rewrite (bind_M_Ok _ _ _ _ _ Hd) in H.
    destruct (manyConnections refList context localField target mutationState input t1)
      as [[c|e] t2] eqn:Hc.
    + rewrite (bind_M_Ok _ _ _ _ _ Hc) in H. inversion H. subst.
      exists d, t1, c. repeat split; assumption.
    + rewrite (bind_M_Throw _ _ _ _ _ Hc) in H. discriminate.
  - rewrite (bind_M_Throw _ _ _ _ _ Hd) in H. discriminate.
Qed.

Lemma resolveNestedSingle_returns (input : value) (currentValue : prim)
    (t t' : trace) (r : ResolutionResult) :
  resolveNestedSingle refList context localField target mutationState
    input currentValue t = (Ok r, t') ->
  exists disconnected t1 connected,
    singleDisconnection refList context input currentValue t
    = (Ok disconnected, t1) /\
    singleConnection refList context localField target mutationState input t1
    = (Ok connected, t') /\
    r = {| disconnect := disconnected; connect := connected |}.
Proof.
  intro H. unfold resolveNestedSingle in H.
  destruct (singleDisconnection refList context input currentValue t)
    as [[d|e] t1] eqn:Hd.
  - rewrite (bind_M_Ok _ _ _ _ _ Hd) in H.
    destruct (singleConnection refList context localField target mutationState input t1)
      as [[c|e] t2] eqn:Hc.
    + rewrite (bind_M_Ok _ _ _ _ _ Hc) in H. inversion H. subst.
      exists d, t1, c. repeat split; assumption.
    + rewrite (bind_M_Throw _ _ _ _ _ Hc) in H. discriminate.
  - rewrite (bind_M_Throw _ _ _ _ _ Hd) in H. discriminate.
Qed.

End Deltas.

(** C2 (as amended). When the input does not combine a connect-side
    operation ([connect] or [create]) with a disconnect-side operation
    ([disconnect] or [disconnectAll]), no identifier of the returned
    disconnect set is in the returned connect set, for either cardinality:
    one of the two sets is then empty. *)
Theorem delta_disjoint_one_direction
    (refList : RefList) (context : value) (localField : LocalField)
    (target : string) (mutationState : value)
    (groupByOther : value -> res (list value * list value))
    (ps : list (string * value)) (currentMany : list value) (currentOne : prim)
    (t : trace) :
  truthy (or_else (field (Obj ps) "connect") (field (Obj ps) "create")) = false \/
  truthy (or_else (field (Obj ps) "disconnect") (field (Obj ps) "disconnectAll")) = false ->
  (forall r t',
      resolveNestedMany refList context localField target mutationState
        groupByOther (Obj ps) currentMany t = (Ok r, t') ->
      disjointDelta r) /\
  (forall r t',
      resolveNestedSingle refList context localField target mutationState
        (Obj ps) currentOne t = (Ok r, t') ->
      disjointDelta r).
Proof.
  intro Hone. split; intros r t' Hr.
  - destruct (resolveNestedMany_returns _ _ _ _ _ _ _ _ _ _ _ Hr)
      as [d [t1 [c [Hd [Hc ->]]]]].
    destruct Hone as [Hno|Hno].
    + rewrite (manyConnections_none _ _ _ _ _ _ _ Hno) in Hc.
      inversion Hc. subst. intros id _ [].
    + rewrite (manyDisconnections_none _ _ _ _ _ _ Hno) in Hd.
      inversion Hd. subst. intros id [].
  - destruct (resolveNestedSingle_returns _ _ _ _ _ _ _ _ _ _ Hr)
      as [d [t1 [c [Hd [Hc ->]]]]].
    destruct Hone as [Hno|Hno].
    + rewrite (singleConnection_absent _ _ _ _ _ _ _ Hno) in Hc.
      inversion Hc. subst. intros id _ [].
    + rewrite singleDisconnection_spec, Hno in Hd.
      inversion Hd. subst. intros id [].
Qed.

Lemma delta_disjoint_one_direction_witness :
  disjointDelta {| disconnect := Some [Example.num 2; Example.num 4];
                   connect := Some [] |}.
Proof.
  exact (proj1 (delta_disjoint_one_direction
           Example.Post Example.noContext Example.postsField "User.posts<Post>"
           Example.noContext Example.groupByNothing
           [("disconnect", Arr [Example.byId 2; Example.byName "x"])]
           [Example.num 1; Example.num 2; Example.num 3] Null []
           (or_introl eq_refl))
         _ _ eq_refl).
Defined.

(** C2 fails as stated: a to-many input that disconnects and connects the
    same identifier gets it back in both sets, and so does a to-one input
    that disconnects the current value and connects it again. *)
Lemma delta_not_disjoint :
  (exists r t',
      resolveNested Example.groupByNothing
        (Obj [("disconnect", Arr [Example.byId 2]);
              ("connect", Arr [Example.byId 2])])
        (ToMany [Example.num 1; Example.num 2]) Example.posts
        Example.noContext Example.noContext [] = (Ok r, t') /\
      ~ disjointDelta r) /\
  (exists r t',
      resolveNested Example.groupByNothing
        (Obj [("disconnectAll", Prim (Boolean true));
              ("connect", Example.byId 2)])
        (ToOne (Number 2)) Example.posts
        Example.noContext Example.noContext [] = (Ok r, t') /\
      ~ disjointDelta r).
Proof.
  split; eexists; eexists; (split; [reflexivity|]);
    intro H; apply (H (Example.num 2)); simpl; now left.
Qed.

(** C7 (as amended). On a to-many input with [disconnectAll] truthy the
    disconnect block is the whole current value, whatever other keys are
    present, and it makes no collaborator call, so no disconnect selector is
    looked up.  [resolveNestedMany] returns that disconnect set when no
    connect or create sub-operation is rejected; when one is, it throws the
    aggregate error and returns nothing. *)
Theorem resolveNestedMany_disconnectAll
    (refList : RefList) (context : value) (localField : LocalField)
    (target : string) (mutationState : value)
    (groupByOther : value -> res (list value * list value))
    (raw input : value) (currentValue : list value) (t : trace) :
  cleanAndValidateInput raw true localField target = Ok input ->
  truthy (field input "disconnectAll") = true ->
  let connects :=
    ask refList (map (connectCall refList context)
                     (elements (field input "connect"))) t in
  let creates :=
    ask refList (map (createCall context mutationState)
                     (elements (field input "create"))) (t ++ connects)%list in
  let failures :=
    (failuresFrom (operationPath localField "connect") 0 (map snd connects)
     ++ failuresFrom (operationPath localField "create") 0 (map snd creates))%list in
  manyDisconnections refList context groupByOther input currentValue t
  = (Ok currentValue, t) /\
  resolveNestedMany refList context localField target mutationState groupByOther
    input currentValue t
  = (match failures with
     | [] => Ok {| disconnect := Some currentValue;
                   connect := Some (foundIds (map snd (connects ++ creates)%list)) |}
     | _ :: _ =>
         Throw (ErrorWithErrors (aggregateMessage target (List.length failures))
                                failures)
     end,
     ((t ++ connects) ++ creates)%list).
Proof.
  intros Hclean Hall connects creates failures.
  pose proof (cleaned_many _ _ _ _ Hclean) as Hval.
  destruct Hval as [[ps ->] Hops].
  pose proof (manyDisconnections_all refList context groupByOther ps
                currentValue t Hall) as Hd.
  split; [exact Hd|].
  unfold resolveNestedMany. rewrite (bind_M_Ok _ _ _ _ _ Hd).
  pose proof (manyConnections_spec refList context localField target
                mutationState (Obj ps) t (conj (ex_intro _ ps eq_refl) Hops)) as Hc.
  cbv zeta in Hc. fold connects in Hc. fold creates in Hc. fold failures in Hc.
  destruct failures as [|e es].
  - now rewrite (bind_M_Ok _ _ _ _ _ Hc).
  - now rewrite (bind_M_Throw _ _ _ _ _ Hc).
Qed.

Lemma resolveNestedMany_disconnectAll_witness :
  resolveNestedMany Example.Post Example.noContext Example.postsField
    "User.posts<Post>" Example.noContext Example.groupByNothing
    (Obj [("disconnectAll", Prim (Boolean true));
          ("disconnect", Arr [Example.byName "x"]);
          ("connect", Arr [Example.byId 5])])
    [Example.num 1; Example.num 2] []
  = (Ok {| disconnect := Some [Example.num 1; Example.num 2];
           connect := Some [Example.num 5] |},
     [(ItemQuery (Example.num 5) Example.noContext "Post",
       Fulfilled (Example.byId 5))]).
Proof.
  exact (proj2 (resolveNestedMany_disconnectAll
           Example.Post Example.noContext Example.postsField "User.posts<Post>"
           Example.noContext Example.groupByNothing
           (Obj [("disconnectAll", Prim (Boolean true));
                 ("disconnect", Arr [Example.byName "x"]);
                 ("connect", Arr [Example.byId 5])])
           (Obj [("disconnectAll", Prim (Boolean true));
                 ("disconnect", Arr [Example.byName "x"]);
                 ("connect", Arr [Example.byId 5])])
           [Example.num 1; Example.num 2] [] eq_refl eq_refl)).
Defined.

(** C7 fails as stated: with [disconnectAll] set and a connect lookup that is
    rejected, the input passes validation and [resolveNestedMany] returns no
    result at all, so no disconnect set either. *)
Lemma disconnectAll_with_rejected_connect :
  cleanAndValidateInput
    (Obj [("disconnectAll", Prim (Boolean true)); ("connect", Arr [Example.byId 6])])
    true Example.postsField "User.posts<Post>"
  = Ok (Obj [("disconnectAll", Prim (Boolean true)); ("connect", Arr [Example.byId 6])]) /\
  ~ exists r t',
      resolveNestedMany Example.Post Example.noContext Example.postsField
        "User.posts<Post>" Example.noContext Example.groupByNothing
        (Obj [("disconnectAll", Prim (Boolean true)); ("connect", Arr [Example.byId 6])])
        [Example.num 1; Example.num 2] [] = (Ok r, t') /\
      disconnect r = Some [Example.num 1; Example.num 2].
Proof.
  split; [reflexivity|].
  intros [r [t' [H _]]]. vm_compute in H. discriminate.
Qed.

(** C10. An input whose only recognised key is [disconnectAll], holding a
    falsy value, passes validation, and the to-many resolution that follows
    returns the empty delta without calling the collaborator. *)
Theorem disconnectAll_falsy_empty_delta
    (groupByOther : value -> res (list value * list value))
    (ps : list (string * value)) (flag : value) (currentValue : list value)
    (listInfo : ListInfo) (context mutationState : value) (t : trace) :
  intersection (map fst ps) NESTED_MUTATIONS = ["disconnectAll"] ->
  assoc "disconnectAll" ps = Some flag ->
  truthy flag = false ->
  validateInput (Obj ps) (targetOf listInfo) true = Ok ["disconnectAll"] /\
  resolveNested groupByOther (Obj ps) (ToMany currentValue) listInfo
    context mutationState t
  = (Ok {| disconnect := Some []; connect := Some [] |}, t).
Proof.
  intros Hkeys Hflag Hfalsy.
  assert (Hvalid : validateInput (Obj ps) (targetOf listInfo) true
                   = Ok ["disconnectAll"]).
  { unfold validateInput, validInputMutations. simpl objectKeys.
    cbn [orTypeError bind res_monad]. rewrite Hkeys. reflexivity. }
  split; [exact Hvalid|].
  unfold resolveNested, cleanAndValidateInput. cbn [many]. rewrite Hvalid.
  cbn [bind M_monad lift].
  set (cleaned := filter (fun kv => includes (fst kv) ["disconnectAll"]) ps).
  change (pick (Obj ps) ["disconnectAll"]) with (Obj cleaned).
  assert (Hf : forall k, field (Obj cleaned) k
                         = if includes k ["disconnectAll"]
                           then field (Obj ps) k else undefined)
    by (intro k; apply field_pick).
  assert (Hall : field (Obj cleaned) "disconnectAll" = flag).
  { rewrite Hf. unfold field. simpl. now rewrite Hflag. }
  assert (Hnod : truthy (or_else (field (Obj cleaned) "disconnect")
                                 (field (Obj cleaned) "disconnectAll")) = false).
  { rewrite Hall, (Hf "disconnect"). unfold or_else. simpl. exact Hfalsy. }
  assert (Hnoc : truthy (or_else (field (Obj cleaned) "connect")
                                 (field (Obj cleaned) "create")) = false)
    by now rewrite !Hf.
  unfold resolveNestedMany.
  rewrite (bind_M_Ok _ _ _ _ _
             (manyDisconnections_none (foreignList listInfo) context groupByOther
                cleaned currentValue t Hnod)).
  now rewrite (bind_M_Ok _ _ _ _ _
                 (manyConnections_none (foreignList listInfo) context
                    (localField_ listInfo) (targetOf listInfo) mutationState
                    cleaned t Hnoc)).
Qed.

Lemma disconnectAll_falsy_empty_delta_witness :
  resolveNested Example.groupByNothing
    (Obj [("disconnectAll", Prim (Boolean false)); ("unknown", Example.num 1)])
    (ToMany [Example.num 1; Example.num 2]) Example.posts
    Example.noContext Example.noContext []
  = (Ok {| disconnect := Some []; connect := Some [] |}, []).
Proof.
  exact (proj2 (disconnectAll_falsy_empty_delta Example.groupByNothing
           [("disconnectAll", Prim (Boolean false)); ("unknown", Example.num 1)]
           (Prim (Boolean false)) [Example.num 1; Example.num 2] Example.posts
           Example.noContext Example.noContext [] eq_refl eq_refl eq_refl)).
Defined.

(** C4. In a to-one resolution that resolves a disconnect target (through
    [disconnectAll], an explicit [disconnect.id] or a lookup by selector),
    resolving it never throws, and the resolved identifier is put in the
    disconnect set if and only if it is the current value; otherwise the
    result has no disconnect entry.  Whatever [resolveNestedSingle] returns
    carries exactly that disconnect set. *)
Theorem singleDisconnection_iff_current
    (refList : RefList) (context : value) (localField : LocalField)
    (target : string) (mutationState : value)
    (ps : list (string * value)) (currentValue : prim) (t : trace) :
  truthy (or_else (field (Obj ps) "disconnect") (field (Obj ps) "disconnectAll")) = true ->
  truthy currentValue = true ->
  let id := fst (disconnectTarget refList context (Obj ps) currentValue t) in
  let t1 := snd (disconnectTarget refList context (Obj ps) currentValue t) in
  resolveIdToDisconnect refList context (Obj ps) currentValue t = (Ok id, t1) /\
  exists set,
    singleDisconnection refList context (Obj ps) currentValue t = (Ok set, t1) /\
    (In id (ids set) <-> id = Prim currentValue) /\
    (id = Prim currentValue -> set = Some [id]) /\
    (id <> Prim currentValue -> set = None) /\
    (forall r t2,
        resolveNestedSingle refList context localField target mutationState
          (Obj ps) currentValue t = (Ok r, t2) ->
        disconnect r = set).
Proof.
  intros Hguard Hcur id t1.
  split; [now apply resolveIdToDisconnect_spec|].
  pose proof (singleDisconnection_spec refList context ps currentValue t) as Hd.
  rewrite Hguard, Hcur in Hd.
  cbn [andb] in Hd. cbv zeta in Hd. fold id in Hd. fold t1 in Hd.
  exists (if strict_equals currentValue id then Some [id] else None).
  split; [exact Hd|].
  destruct (strict_equals currentValue id) eqn:Heq.
  - apply strict_equals_eq in Heq. repeat split; try tauto.
    + intros _. simpl. now left.
    + intros r t2 Hr.
      destruct (resolveNestedSingle_returns _ _ _ _ _ _ _ _ _ _ Hr)
        as [d [t1' [c [Hd' [_ ->]]]]].
      rewrite Hd in Hd'. now inversion Hd'.
  - assert (Hne : id <> Prim currentValue).
    { intro E. apply strict_equals_eq in E. congruence. }
    repeat split; try tauto.
    + intros [].
    + intros r t2 Hr.
      destruct (resolveNestedSingle_returns _ _ _ _ _ _ _ _ _ _ Hr)
        as [d [t1' [c [Hd' [_ ->]]]]].
      rewrite Hd in Hd'. now inversion Hd'.
Qed.

Lemma singleDisconnection_iff_current_witness :
  singleDisconnection Example.Post Example.noContext
    (Obj [("disconnect", Example.byName "x")]) (Str "4") []
  = (Ok (Some [Prim (Str "4")]),
     [(ItemQuery (Example.byName "x") Example.noContext "Post",
       Fulfilled (Example.byId 4))]) /\
  singleDisconnection Example.Post Example.noContext
    (Obj [("disconnect", Example.byName "x")]) (Str "5") []
  = (Ok None,
     [(ItemQuery (Example.byName "x") Example.noContext "Post",
       Fulfilled (Example.byId 4))]).
Proof.
  split.
  - destruct (proj2 (singleDisconnection_iff_current
               Example.Post Example.noContext Example.postsField
               "User.posts<Post>" Example.noContext
               [("disconnect", Example.byName "x")] (Str "4") []
               eq_refl eq_refl)) as [set [Hd [_ [Hyes _]]]].
    rewrite Hd, (Hyes eq_refl). reflexivity.
  - destruct (proj2 (singleDisconnection_iff_current
               Example.Post Example.noContext Example.postsField
               "User.posts<Post>" Example.noContext
               [("disconnect", Example.byName "x")] (Str "5") []
               eq_refl eq_refl)) as [set [Hd [_ [_ [Hno _]]]]].
    rewrite Hd, (Hno ltac:(discriminate)). reflexivity.
Defined.

(** The looked-up identifier is compared as a string: a current value held
    as the number 4 is not strictly equal to the found item's id "4", so
    nothing is disconnected. *)
Example singleDisconnection_number_current :
  singleDisconnection Example.Post Example.noContext
    (Obj [("disconnect", Example.byName "x")]) (Number 4) []
  = (Ok None,
     [(ItemQuery (Example.byName "x") Example.noContext "Post",
       Fulfilled (Example.byId 4))]).
Proof. reflexivity. Qed.

(** C9. In a to-one resolution with [connect] or [create] set, the connect
    block makes exactly one collaborator call: a lookup of [connect.id] when
    [connect] is set, a creation from [create] otherwise.  If that call is
    rejected the resolver throws "Unable to connect a <target>" (or
    "Unable to create a <target>") with the single error tagged
    [[localField.path, 'connect'|'create']]; if it yields an item, the result
    connects the item's [id]; if it yields [null] (or any falsy value), the
    result has no connect entry and nothing is thrown. *)
Theorem resolveNestedSingle_connect_or_create
    (refList : RefList) (context : value) (localField : LocalField)
    (target : string) (mutationState : value)
    (ps : list (string * value)) (currentValue : prim) (t : trace) :
  truthy (or_else (field (Obj ps) "connect") (field (Obj ps) "create")) = true ->
  exists set t1,
    singleDisconnection refList context (Obj ps) currentValue t = (Ok set, t1) /\
    let operation := if truthy (field (Obj ps) "connect") then "connect" else "create" in
    let c := if truthy (field (Obj ps) "connect")
             then ItemQuery (field (field (Obj ps) "connect") "id") context
                            (itemQueryName refList)
             else CreateMutation (field (Obj ps) "create") context mutationState in
    let o := respond refList t1 c in
    let run := resolveNestedSingle refList context localField target
                 mutationState (Obj ps) currentValue t in
    snd run = (t1 ++ [(c, o)])%list /\
    (forall reason,
        o = Rejected reason ->
        fst run = Throw (ErrorWithErrors
                           ("Unable to " ++ operation ++ " a " ++ target)
                           [Entry (Rejection reason)
                                  [Prim (Str (path localField)); Prim (Str operation)]])) /\
    (forall item,
        o = Fulfilled item -> truthy item = true ->
        fst run = Ok {| disconnect := set; connect := Some [field item "id"] |}) /\
    (forall item,
        o = Fulfilled item -> truthy item = false ->
        fst run = Ok {| disconnect := set; connect := None |}).
Proof.
  intro Hguard.
  destruct (singleDisconnection_total refList context ps currentValue t)
    as [set [t1 Hd]].
  exists set, t1. split; [exact Hd|]. cbv zeta.
  pose proof (singleConnection_spec refList context localField target
                mutationState ps t1 Hguard) as Hc.
  cbv zeta in Hc. unfold singleCall, connectCall, createCall in Hc.
  unfold resolveNestedSingle. rewrite (bind_M_Ok _ _ _ _ _ Hd).
  cbn [bind M_monad]. rewrite Hc.
  unfold singleOutcome, singleOperation, operationPath.
  destruct (respond refList t1 _) as [item|reason].
  - split; [reflexivity|]. split; [discriminate|].
    split; intros item' E Hitem; inversion E; subst item'; now rewrite Hitem.
  - split; [reflexivity|]. split; [|split; discriminate].
    intros reason' E. now inversion E.
Qed.

Lemma resolveNestedSingle_connect_or_create_witness :
  exists set t1,
    singleDisconnection Example.Post Example.noContext
      (Obj [("connect", Example.byId 6)]) Null [] = (Ok set, t1) /\
    fst (resolveNestedSingle Example.Post Example.noContext Example.postsField
           "User.posts<Post>" Example.noContext
           (Obj [("connect", Example.byId 6)]) Null [])
    = Throw (ErrorWithErrors "Unable to connect a User.posts<Post>"
               [Entry (Rejection (Prim (Str "transport")))
                      [Prim (Str "posts"); Prim (Str "connect")]]).
Proof.
  destruct (resolveNestedSingle_connect_or_create
              Example.Post Example.noContext Example.postsField
              "User.posts<Post>" Example.noContext
              [("connect", Example.byId 6)] Null [] eq_refl)
    as [set [t1 [Hd [_ [Hrejected _]]]]].
  exists set, t1. split; [exact Hd|]. reflexivity.
Defined.

(** The scenarios of the specification for the to-one connect block: a
    creation that succeeds connects the new item and sets no [disconnect]
    key; a lookup that finds nothing connects nothing. *)
Example resolveNested_create_bob :
  resolveNested Example.groupByNothing
    (Obj [("create", Example.byName "Bob")]) (ToOne Null) Example.posts
    Example.noContext Example.noContext []
  = (Ok {| disconnect := None; connect := Some [Example.num 99] |},
     [(CreateMutation (Example.byName "Bob") Example.noContext Example.noContext,
       Fulfilled (Example.byId 99))]).
Proof. reflexivity. Qed.

Example resolveNested_connect_missing :
  resolveNested Example.groupByNothing
    (Obj [("connect", Example.byId 7)]) (ToOne Null) Example.posts
    Example.noContext Example.noContext []
  = (Ok {| disconnect := None; connect := None |},
     [(ItemQuery (Example.num 7) Example.noContext "Post", Fulfilled (Prim Null))]).
Proof. reflexivity. Qed.

(** C5. A to-one input in which both [create] and [connect] survive the
    filter is refused with the [ParameterError] "Can only provide one of
    'connect' or 'create' when mutating <target>", which [resolveNested]
    reports wrapped with the field path, before any collaborator call; a
    to-many input with the same two keys surviving is accepted. *)
Theorem validateInput_create_and_connect
    (groupByOther : value -> res (list value * list value))
    (input : value) (valid : list string) (listInfo : ListInfo)
    (currentOne : prim) (context mutationState : value) (t : trace) :
  includes "create" valid = true ->
  includes "connect" valid = true ->
  (validInputMutations input false = Ok valid ->
   validateInput input (targetOf listInfo) false
   = Throw (ParameterError
              ("Can only provide one of 'connect' or 'create' when mutating "
               ++ targetOf listInfo)) /\
   resolveNested groupByOther input (ToOne currentOne) listInfo
     context mutationState t
   = (Throw (invalidInput listInfo
               (ParameterError
                  ("Can only provide one of 'connect' or 'create' when mutating "
                   ++ targetOf listInfo))), t)) /\
  (validInputMutations input true = Ok valid ->
   validateInput input (targetOf listInfo) true = Ok valid).
Proof.
  intros Hcreate Hconnect.
  assert (Hlen : (List.length valid =? 0)%nat = false).
  { destruct valid; [discriminate|reflexivity]. }
  split; intro Hvalid.
  - assert (Hv : validateInput input (targetOf listInfo) false
                 = Throw (ParameterError (conflictMessage (targetOf listInfo)))).
    { unfold validateInput. rewrite Hvalid. cbn [bind res_monad].
      now rewrite Hlen, Hcreate, Hconnect. }
    split; [exact Hv|].
    unfold resolveNested, cleanAndValidateInput. cbn [many].
    now rewrite Hv.
  - unfold validateInput. rewrite Hvalid. cbn [bind res_monad].
    now rewrite Hlen.
Qed.

Lemma validateInput_create_and_connect_witness :
  validateInput
    (Obj [("create", Example.byName "Bob"); ("connect", Example.byId 1)])
    "User.posts<Post>" false
  = Throw (ParameterError
             "Can only provide one of 'connect' or 'create' when mutating User.posts<Post>") /\
  validateInput
    (Obj [("create", Arr [Example.byName "Bob"]); ("connect", Arr [Example.byId 1])])
    "User.posts<Post>" true
  = Ok ["create"; "connect"].
Proof.
  split.
  - exact (proj1 (proj1 (validateInput_create_and_connect Example.groupByNothing
             (Obj [("create", Example.byName "Bob"); ("connect", Example.byId 1)])
             ["create"; "connect"] Example.posts Null
             Example.noContext Example.noContext [] eq_refl eq_refl) eq_refl)).
  - exact (proj2 (validateInput_create_and_connect Example.groupByNothing
             (Obj [("create", Arr [Example.byName "Bob"]);
                   ("connect", Arr [Example.byId 1])])
             ["create"; "connect"] Example.posts Null
             Example.noContext Example.noContext [] eq_refl eq_refl) eq_refl).
Defined.











(* ================================================================= *)
(** ** Further properties: validation *)

Lemma filterM_nonempty {A} (p : A -> res bool) (xs ys : list A) :
  filterM p xs = Ok ys -> ys <> [] -> exists x, In x xs /\ p x = Ok true.
Proof.
  intros H Hne. destruct ys as [|y ys]; [congruence|].
  exists y. apply (filterM_In _ _ _ H). now left.
Qed.

Lemma hasKeys_true (item : value) :
  hasKeys item = Ok true -> actionable item.
Proof.
  unfold hasKeys, actionable. destruct (objectKeys item) as [ks|]; [|discriminate].
  simpl. intro H. exists ks. split; [reflexivity|].
  destruct ks; [discriminate|discriminate].
Qed.

Lemma keepMany_actionable (input : value) (k : string) :
  k <> "disconnectAll" -> keepMany input k = Ok true ->
  exists items, getProp input k = Some (Arr items) /\
                Forall (fun x => nullish x = false) items /\
                Exists actionable items.
Proof.
  intros Hk H.
  destruct (keepMany_array _ _ Hk H) as [items [Hg Hnn]].
  exists items. split; [assumption|]. split; [assumption|].
  unfold keepMany in H.
  destruct (String.eqb_spec k "disconnectAll") as [->|_]; [congruence|].
  unfold prop in H. rewrite Hg in H. simpl in H.
  destruct (filterM hasKeys items) as [kept|] eqn:Hf; [|discriminate].
  simpl in H. assert (Hne : kept <> []).
  { destruct kept; [discriminate|discriminate]. }
  destruct (filterM_nonempty _ _ _ Hf Hne) as [x [Hin Hx]].
  apply Exists_exists. exists x. split; [assumption|now apply hasKeys_true].
Qed.

Lemma keepSingle_actionable (input : value) (k : string) :
  k <> "disconnectAll" -> keepSingle input k = Ok true ->
  exists v, getProp input k = Some v /\ actionable v.
Proof.
  intros Hk H. unfold keepSingle in H.
  destruct (String.eqb_spec k "disconnectAll") as [->|_]; [congruence|].
  unfold prop in H. destruct (getProp input k) as [v|]; [|discriminate].
  simpl in H. exists v. split; [reflexivity|now apply hasKeys_true].
Qed.

(** X1. What a successful validation guarantees: at least one operation is
    left; a to-one input never keeps both [create] and [connect]; and every
    key kept, other than [disconnectAll], holds actionable content: for
    to-many an array without [null]/[undefined] items in which some item has
    a key, for to-one a value with at least one key. *)
Theorem validateInput_accepts
    (input : value) (target : string) (many_ : bool) (valid : list string) :
  validateInput input target many_ = Ok valid ->
  valid <> [] /\
  (many_ = false -> ~ (In "create" valid /\ In "connect" valid)) /\
  (forall k, In k valid -> k <> "disconnectAll" ->
     if many_
     then exists items, getProp input k = Some (Arr items) /\
                        Forall (fun x => nullish x = false) items /\
                        Exists actionable items
     else exists v, getProp input k = Some v /\ actionable v).
Proof.
  unfold validateInput, validInputMutations.
  destruct (objectKeys input) as [ks|]; [|discriminate]. simpl.
  destruct (filterM _ (intersection ks NESTED_MUTATIONS)) as [kept|] eqn:Hf;
    [|discriminate].
  cbn [bind res_monad].
  destruct (List.length kept =? 0)%nat eqn:Hlen; [discriminate|].
  destruct (negb many_ && includes "create" kept && includes "connect" kept)
    eqn:Hboth; [discriminate|].
  intro H. inversion H. subst valid. clear H.
  split; [intros ->; discriminate|]. split.
  - intros -> [Hcr Hco]. apply includes_In in Hcr, Hco.
    simpl in Hboth. rewrite Hcr, Hco in Hboth. discriminate.
  - intros k Hin Hk. destruct (filterM_In _ _ _ Hf k Hin) as [_ Hkeep].
    destruct many_.
    + now apply keepMany_actionable.
    + now apply keepSingle_actionable.
Qed.

Lemma validateInput_accepts_witness :
  exists items,
    getProp (Obj [("connect", Arr [Obj []; Example.byId 5])]) "connect"
    = Some (Arr items) /\
    Forall (fun x => nullish x = false) items /\
    Exists actionable items.
Proof.
  exact (proj2 (proj2 (validateInput_accepts
           (Obj [("connect", Arr [Obj []; Example.byId 5])])
           "User.posts<Post>" true ["connect"] eq_refl))
         "connect" (or_introl eq_refl) ltac:(discriminate)).
Defined.

Lemma hasKeys_throws (item : value) (e : thrown) :
  hasKeys item = Throw e -> e = TypeError.
Proof.
  unfold hasKeys. destruct (objectKeys item); simpl; intro H;
    [discriminate | now inversion H].
Qed.

Lemma filterM_throws {A} (p : A -> res bool) (xs : list A) (e : thrown) :
  (forall x e', p x = Throw e' -> e' = TypeError) ->
  filterM p xs = Throw e -> e = TypeError.
Proof.
  intro Hp. induction xs as [|x xs IH]; simpl; [discriminate|].
  destruct (p x) as [b|e'] eqn:Hx; simpl.
  - destruct (filterM p xs) as [ys|e'']; simpl; [discriminate|].
    intro H. inversion H. subst. now apply IH.
  - intro H. inversion H. subst. now apply (Hp x).
Qed.

Lemma keep_throws (input : value) (many_ : bool) (k : string) (e : thrown) :
  (if many_ then keepMany input else keepSingle input) k = Throw e ->
  e = TypeError.
Proof.
  destruct many_; unfold keepMany, keepSingle;
    destruct (String.eqb k "disconnectAll"); try discriminate;
    unfold prop; destruct (getProp input k) as [v|]; simpl;
    try (intro H; now inversion H).
  - destruct v as [q|items|qs]; try discriminate.
    destruct (filterM hasKeys items) as [kept|e'] eqn:Hf; simpl; [discriminate|].
    intro H. inversion H. subst.
    apply (filterM_throws hasKeys items); [|assumption].
    intros x e'. apply hasKeys_throws.
  - apply hasKeys_throws.
Qed.

(** X2. Validation fails in three ways only: the runtime's [TypeError] (from
    [Object.keys] on [null]/[undefined]), the [ParameterError] asking for a
    nested mutation, and, for a to-one input, the [ParameterError] refusing
    [create] together with [connect]. *)
Theorem validateInput_failures
    (input : value) (target : string) (many_ : bool) (e : thrown) :
  validateInput input target many_ = Throw e ->
  e = TypeError \/
  e = ParameterError
        ("Must provide a nested mutation (create, connect, disconnect, disconnectAll) when mutating "
         ++ target) \/
  (many_ = false /\
   e = ParameterError
         ("Can only provide one of 'connect' or 'create' when mutating " ++ target)).
Proof.
  unfold validateInput, validInputMutations.
  destruct (objectKeys input) as [ks|]; simpl;
    [|intro H; inversion H; now left].
  destruct (filterM _ (intersection ks NESTED_MUTATIONS)) as [kept|e'] eqn:Hf; simpl.
  - destruct (List.length kept =? 0)%nat.
    + intro H. inversion H. right. now left.
    + destruct many_; simpl; [discriminate|].
      destruct (includes "create" kept && includes "connect" kept);
        [|discriminate].
      intro H. inversion H. right. right. now split.
  - intro H. inversion H. subst. left.
    apply (filterM_throws _ _ _ (keep_throws input many_) Hf).
Qed.

Lemma validateInput_failures_witness :
  TypeError = TypeError \/
  TypeError
  = ParameterError
      "Must provide a nested mutation (create, connect, disconnect, disconnectAll) when mutating User.posts<Post>" \/
  (false = false /\
   TypeError
   = ParameterError
       "Can only provide one of 'connect' or 'create' when mutating User.posts<Post>").
Proof.
  exact (validateInput_failures (Obj [("connect", Prim Null)])
           "User.posts<Post>" false TypeError eq_refl).
Defined.

(* ================================================================= *)
(** ** Further properties: batches and the to-many resolver *)

Lemma mapM_length_M {A B} (f : A -> M B) (xs : list A) (ys : list B) (t t' : trace) :
  mapM f xs t = (Ok ys, t') -> List.length ys = List.length xs.
Proof.
  revert ys t t'. induction xs as [|x xs IH]; intros ys t t' H.
  - inversion H. reflexivity.
  - change (mapM f (x :: xs))
      with (y <- f x ;; zs <- mapM f xs ;; ret (y :: zs)) in H.
    destruct (f x t) as [[y|e] t1] eqn:Hx.
    + rewrite (bind_M_Ok _ _ _ _ _ Hx) in H.
      destruct (mapM f xs t1) as [[zs|e] t2] eqn:Hrest.
      * rewrite (bind_M_Ok _ _ _ _ _ Hrest) in H. inversion H. subst.
        simpl. f_equal. now apply (IH zs t1 t').
      * rewrite (bind_M_Throw _ _ _ _ _ Hrest) in H. discriminate.
    + rewrite (bind_M_Throw _ _ _ _ _ Hx) in H. discriminate.
Qed.

(** X3. [_runActions] is all or nothing, whatever the action: it reports at most
    one error per item; without errors it returns one value per item; with
    an error it returns no value at all.  An absent (falsy) target list
    starts no action. *)
Theorem runActions_all_or_nothing
    (action : value -> M outcome) (targets : value) (path : list value)
    (t t' : trace) (values : list value) (errors : list entry) :
  _runActions action targets path t = (Ok (values, errors), t') ->
  let items := elements (or_else targets (Arr [])) in
  List.length errors <= List.length items /\
  (errors = [] -> List.length values = List.length items) /\
  (errors <> [] -> values = []) /\
  (truthy targets = false -> values = [] /\ errors = [] /\ t' = t).
Proof.
  intros H items. unfold _runActions in H.
  destruct (mapAction action (or_else targets (Arr [])) t)
    as [[results|e] t1] eqn:Hmap.
  2: { rewrite (bind_M_Throw _ _ _ _ _ Hmap) in H. discriminate. }
  rewrite (bind_M_Ok _ _ _ _ _ Hmap) in H.
  unfold pSettle, withIndex in H. rewrite failures_indexed in H.
  inversion H. subst t'. clear H.
  assert (Hlen : List.length results = List.length items).
  { subst items. unfold mapAction in Hmap.
    destruct (or_else targets (Arr [])) as [q|xs|qs]; try discriminate.
    now apply mapM_length_M in Hmap. }
  split; [|split; [|split]].
  - rewrite failuresFrom_length, <- Hlen. apply filter_length_le.
  - intro E. rewrite E. simpl. now rewrite length_map.
  - intro Hne. destruct (failuresFrom path 0 results); [congruence|reflexivity].
  - intro Hfalsy. unfold or_else in Hmap. rewrite Hfalsy in Hmap.
    simpl in Hmap. inversion Hmap. subst. now repeat split.
Qed.

Lemma runActions_all_or_nothing_witness :
  List.length [Entry (Rejection (Prim (Str "transport")))
                     [Prim (Str "posts"); Prim (Str "connect"); Example.num 1]]
  <= 3 /\
  ([Entry (Rejection (Prim (Str "transport")))
          [Prim (Str "posts"); Prim (Str "connect"); Example.num 1]] <> [] ->
   @nil value = []).
Proof.
  destruct (runActions_all_or_nothing
              (lookupId Example.Post Example.noContext)
              (Arr [Example.byId 5; Example.byId 6; Example.byId 8])
              (operationPath Example.postsField "connect") [] _ _ _ eq_refl)
    as [Hle [_ [Hnone _]]].
  split; [exact Hle | exact Hnone].
Defined.

Section ManyRuns.

Variable refList : RefList.
Variable context : value.
Variable localField : LocalField.
Variable target : string.
Variable mutationState : value.

(** The disconnect block of a validated input: its value, and the events it
    adds, whatever [lodash.groupby] does outside arrays. *)
Lemma manyDisconnections_events
    (groupByOther : value -> res (list value * list value))
    (input : value) (currentValue : list value) (t : trace) :
  validatedMany input ->
  let lookedUp :=
    if truthy (field input "disconnectAll") then []
    else filter (fun s => negb (carriesId s)) (elements (field input "disconnect")) in
  let events := ask refList (map (selectorCall refList context) lookedUp) t in
  manyDisconnections refList context groupByOther input currentValue t
  = (Ok (if truthy (field input "disconnectAll") then currentValue
         else (directIds (elements (field input "disconnect"))
               ++ foundIds (map snd events))%list),
     (t ++ events)%list).
Proof.
  intros [[ps ->] [_ [_ Hd]]] lookedUp events. subst events lookedUp.
  destruct (truthy (field (Obj ps) "disconnectAll")) eqn:Hall.
  - simpl. rewrite app_nil_r. now apply manyDisconnections_all.
  - apply operandMany_field in Hd. destruct Hd as [Hd|[sels [Hd Hnn]]].
    + rewrite Hd. simpl. rewrite app_nil_r.
      apply manyDisconnections_none. unfold or_else. rewrite Hd.
      unfold undefined. cbn [truthy truthy_prim]. exact Hall.
    + rewrite Hd. simpl elements.
      now apply manyDisconnections_selectors.
Qed.

End ManyRuns.

(** A whole to-many run on a validated input. *)
Lemma resolveNestedMany_run
    (refList : RefList) (context : value) (localField : LocalField)
    (target : string) (mutationState : value)
    (groupByOther : value -> res (list value * list value))
    (input : value) (currentValue : list value) (t : trace) :
  validatedMany input ->
  let lookedUp :=
    if truthy (field input "disconnectAll") then []
    else filter (fun s => negb (carriesId s)) (elements (field input "disconnect")) in
  let lookups := ask refList (map (selectorCall refList context) lookedUp) t in
  let connects :=
    ask refList (map (connectCall refList context)
                     (elements (field input "connect"))) (t ++ lookups)%list in
  let creates :=
    ask refList (map (createCall context mutationState)
                     (elements (field input "create")))
        ((t ++ lookups) ++ connects)%list in
  let failures :=
    (failuresFrom (operationPath localField "connect") 0 (map snd connects)
     ++ failuresFrom (operationPath localField "create") 0 (map snd creates))%list in
  resolveNestedMany refList context localField target mutationState groupByOther
    input currentValue t
  = (match failures with
     | [] =>
         Ok {| disconnect :=
                 Some (if truthy (field input "disconnectAll") then currentValue
                       else (directIds (elements (field input "disconnect"))
                             ++ foundIds (map snd lookups))%list);
               connect := Some (foundIds (map snd (connects ++ creates)%list)) |}
     | _ :: _ =>
         Throw (ErrorWithErrors (aggregateMessage target (List.length failures))
                                failures)
     end,
     (((t ++ lookups) ++ connects) ++ creates)%list).
Proof.
  intros Hval lookedUp lookups connects creates failures.
  pose proof (manyDisconnections_events refList context groupByOther
                input currentValue t Hval) as Hd.
  cbv zeta in Hd. fold lookedUp in Hd. fold lookups in Hd.
  pose proof (manyConnections_spec refList context localField target
                mutationState input (t ++ lookups)%list Hval) as Hc.
  cbv zeta in Hc. fold connects in Hc. fold creates in Hc. fold failures in Hc.
  unfold resolveNestedMany. rewrite (bind_M_Ok _ _ _ _ _ Hd).
  destruct failures as [|e es].
  - now rewrite (bind_M_Ok _ _ _ _ _ Hc).
  - now rewrite (bind_M_Throw _ _ _ _ _ Hc).
Qed.

(** X4. The calls of a to-many resolution depend on the input alone: the
    lookups of the disconnect selectors without an [id], then one lookup per
    [connect] item, then one creation per [create] item, each list in input
    order.  All of them are made whether or not any of them is rejected: a
    rejected connect does not stop the creations. *)
Theorem resolveNestedMany_calls
    (refList : RefList) (context : value) (localField : LocalField)
    (target : string) (mutationState : value)
    (groupByOther : value -> res (list value * list value))
    (raw input : value) (currentValue : list value) (t : trace) :
  cleanAndValidateInput raw true localField target = Ok input ->
  exists events,
    snd (resolveNestedMany refList context localField target mutationState
           groupByOther input currentValue t) = (t ++ events)%list /\
    map fst events = manyCalls refList context mutationState input.
Proof.
  intro Hclean. pose proof (cleaned_many _ _ _ _ Hclean) as Hval.
  pose proof (resolveNestedMany_run refList context localField target
                mutationState groupByOther input currentValue t Hval) as Hrun.
  cbv zeta in Hrun. rewrite Hrun. cbn [snd].
  eexists. split.
  - rewrite <- !app_assoc. reflexivity.
  - unfold manyCalls. rewrite !map_app, !ask_calls.
    now destruct (truthy (field input "disconnectAll")).
Qed.

Lemma resolveNestedMany_calls_witness :
  exists events,
    snd (resolveNestedMany Example.Post Example.noContext Example.postsField
           "User.posts<Post>" Example.noContext Example.groupByNothing
           (Obj [("connect", Arr [Example.byId 6]);
                 ("create", Arr [Example.byName "Bob"])]) [] [])
    = ([] ++ events)%list /\
    map fst events
    = [ItemQuery (Example.num 6) Example.noContext "Post";
       CreateMutation (Example.byName "Bob") Example.noContext Example.noContext].
Proof.
  exact (resolveNestedMany_calls Example.Post Example.noContext
           Example.postsField "User.posts<Post>" Example.noContext
           Example.groupByNothing
           (Obj [("connect", Arr [Example.byId 6]);
                 ("create", Arr [Example.byName "Bob"])])
           (Obj [("connect", Arr [Example.byId 6]);
                 ("create", Arr [Example.byName "Bob"])]) [] [] eq_refl).
Defined.

(** X5. When no connect lookup and no creation is rejected, a to-many
    resolution returns: its connect set lists the identifiers of the items
    found by the [connect] lookups, then those of the created items, both in
    input order, lookups that found nothing being left out without an
    error; its disconnect set is what the disconnect block computed. *)
Theorem resolveNestedMany_success
    (refList : RefList) (context : value) (localField : LocalField)
    (target : string) (mutationState : value)
    (groupByOther : value -> res (list value * list value))
    (raw input : value) (currentValue : list value) (t : trace) :
  cleanAndValidateInput raw true localField target = Ok input ->
  let t1 :=
    snd (manyDisconnections refList context groupByOther input currentValue t) in
  let connects :=
    ask refList (map (connectCall refList context)
                     (elements (field input "connect"))) t1 in
  let creates :=
    ask refList (map (createCall context mutationState)
                     (elements (field input "create"))) (t1 ++ connects)%list in
  existsb isRejected (map snd (connects ++ creates)%list) = false ->
  exists disconnectIds,
    manyDisconnections refList context groupByOther input currentValue t
    = (Ok disconnectIds, t1) /\
    resolveNestedMany refList context localField target mutationState
      groupByOther input currentValue t
    = (Ok {| disconnect := Some disconnectIds;
             connect := Some (foundIds (map snd connects)
                              ++ foundIds (map snd creates))%list |},
       ((t1 ++ connects) ++ creates)%list).
Proof.
  intros Hclean t1 connects creates Hnone.
  pose proof (cleaned_many _ _ _ _ Hclean) as Hval.
  pose proof (manyDisconnections_events refList context groupByOther
                input currentValue t Hval) as Hd.
  cbv zeta in Hd.
  assert (Et : t1 = snd (manyDisconnections refList context groupByOther
                           input currentValue t)) by reflexivity.
  rewrite Hd in Et. cbn [snd] in Et.
  eexists. split; [rewrite Et; exact Hd|].
  pose proof (resolveNestedMany_run refList context localField target
                mutationState groupByOther input currentValue t Hval) as Hrun.
  cbv zeta in Hrun. rewrite <- Et in Hrun.
  fold connects in Hrun. fold creates in Hrun.
  rewrite map_app, existsb_app in Hnone.
  apply Bool.orb_false_iff in Hnone. destruct Hnone as [H1 H2].
  rewrite (proj2 (failuresFrom_nil (operationPath localField "connect") 0 _) H1) in Hrun.
  rewrite (proj2 (failuresFrom_nil (operationPath localField "create") 0 _) H2) in Hrun.
  cbn [app] in Hrun. rewrite Hrun. now rewrite map_app, foundIds_app.
Qed.

Lemma resolveNestedMany_success_witness :
  exists disconnectIds,
    manyDisconnections Example.Post Example.noContext Example.groupByNothing
      (Obj [("connect", Arr [Example.byId 5; Example.byId 7]);
            ("create", Arr [Example.byName "Bob"])]) [] []
    = (Ok disconnectIds, []) /\
    resolveNestedMany Example.Post Example.noContext Example.postsField
      "User.posts<Post>" Example.noContext Example.groupByNothing
      (Obj [("connect", Arr [Example.byId 5; Example.byId 7]);
            ("create", Arr [Example.byName "Bob"])]) [] []
    = (Ok {| disconnect := Some disconnectIds;
             connect := Some [Example.num 5; Example.num 99] |},
       [(ItemQuery (Example.num 5) Example.noContext "Post",
         Fulfilled (Example.byId 5));
        (ItemQuery (Example.num 7) Example.noContext "Post",
         Fulfilled (Prim Null));
        (CreateMutation (Example.byName "Bob") Example.noContext Example.noContext,
         Fulfilled (Example.byId 99))]).
Proof.
  exact (resolveNestedMany_success Example.Post Example.noContext
           Example.postsField "User.posts<Post>" Example.noContext
           Example.groupByNothing
           (Obj [("connect", Arr [Example.byId 5; Example.byId 7]);
                 ("create", Arr [Example.byName "Bob"])])
           (Obj [("connect", Arr [Example.byId 5; Example.byId 7]);
                 ("create", Arr [Example.byName "Bob"])]) [] []
           eq_refl eq_refl).
Defined.

Lemma filter_none {A} (p : A -> bool) (xs : list A) :
  forallb p xs = true -> filter (fun x => negb (p x)) xs = [].
Proof.
  induction xs as [|x xs IH]; simpl; [reflexivity|].
  destruct (p x); simpl; [exact IH | discriminate].
Qed.

Lemma directIds_all (xs : list value) :
  forallb carriesId xs = true -> directIds xs = map (fun s => field s "id") xs.
Proof.
  unfold directIds. induction xs as [|x xs IH]; simpl; [reflexivity|].
  destruct (carriesId x); simpl; [|discriminate].
  intro H. now rewrite IH.
Qed.

(** X6. Disconnecting by identifier costs no lookup: when every selector of a
    to-many disconnect list carries an [id], the disconnect set is those
    identifiers in input order and the disconnect block makes no
    collaborator call; with no [connect] or [create] beside it, the whole
    resolution makes none. *)
Theorem manyDisconnections_explicit_ids
    (refList : RefList) (context : value) (localField : LocalField)
    (target : string) (mutationState : value)
    (groupByOther : value -> res (list value * list value))
    (raw input : value) (selectors currentValue : list value) (t : trace) :
  cleanAndValidateInput raw true localField target = Ok input ->
  truthy (field input "disconnectAll") = false ->
  field input "disconnect" = Arr selectors ->
  forallb carriesId selectors = true ->
  manyDisconnections refList context groupByOther input currentValue t
  = (Ok (map (fun s => field s "id") selectors), t) /\
  (truthy (or_else (field input "connect") (field input "create")) = false ->
   resolveNestedMany refList context localField target mutationState
     groupByOther input currentValue t
   = (Ok {| disconnect := Some (map (fun s => field s "id") selectors);
            connect := Some [] |}, t)).
Proof.
  intros Hclean Hall Hsel Hids.
  pose proof (cleaned_many _ _ _ _ Hclean) as Hval.
  pose proof (manyDisconnections_events refList context groupByOther
                input currentValue t Hval) as Hd.
  cbv zeta in Hd. rewrite Hall, Hsel in Hd. simpl elements in Hd.
  rewrite (filter_none _ _ Hids), (directIds_all _ Hids) in Hd.
  simpl in Hd. rewrite !app_nil_r in Hd.
  split; [exact Hd|].
  intro Hnone. destruct Hval as [[ps ->] _].
  unfold resolveNestedMany. rewrite (bind_M_Ok _ _ _ _ _ Hd).
  now rewrite (bind_M_Ok _ _ _ _ _
                 (manyConnections_none refList context localField target
                    mutationState ps t Hnone)).
Qed.

Lemma manyDisconnections_explicit_ids_witness :
  resolveNestedMany Example.Post Example.noContext Example.postsField
    "User.posts<Post>" Example.noContext Example.groupByNothing
    (Obj [("disconnect", Arr [Example.byId 3; Example.byId 6])])
    [Example.num 3] []
  = (Ok {| disconnect := Some [Example.num 3; Example.num 6];
           connect := Some [] |}, []).
Proof.
  exact (proj2 (manyDisconnections_explicit_ids Example.Post Example.noContext
           Example.postsField "User.posts<Post>" Example.noContext
           Example.groupByNothing
           (Obj [("disconnect", Arr [Example.byId 3; Example.byId 6])])
           (Obj [("disconnect", Arr [Example.byId 3; Example.byId 6])])
           [Example.byId 3; Example.byId 6] [Example.num 3] []
           eq_refl eq_refl eq_refl eq_refl) eq_refl).
Defined.

(** X7. Through [resolveNested], [lodash.groupby] only ever receives an array:
    the outcome of a resolution does not depend on what the library does with
    any other collection. *)
Theorem resolveNested_groupBy_arrays_only
    (groupBy1 groupBy2 : value -> res (list value * list value))
    (input : value) (rel : relationship) (listInfo : ListInfo)
    (context mutationState : value) (t : trace) :
  resolveNested groupBy1 input rel listInfo context mutationState t
  = resolveNested groupBy2 input rel listInfo context mutationState t.
Proof.
  unfold resolveNested.
  destruct (cleanAndValidateInput input (many rel) (localField_ listInfo)
              (targetOf listInfo)) as [cleaned|e] eqn:Hclean; [|reflexivity].
  rewrite !(bind_lift_Ok _ _ _ _ eq_refl).
  destruct rel as [currentValue|currentValue]; [|reflexivity].
  pose proof (cleaned_many _ _ _ _ Hclean) as Hval.
  now rewrite !(resolveNestedMany_run _ _ _ _ _ _ _ _ _ Hval).
Qed.

(* ================================================================= *)
(** ** Further properties: the to-one resolver and the errors thrown *)

(** X8. A to-one disconnect asks the collaborator only when it has to: there is
    a current value, [disconnectAll] is not set, and the selector has no
    [id] of its own; it then makes exactly one lookup, of the selector.  With
    [disconnectAll] set the disconnect set is the current value when there is
    one, and absent otherwise. *)
Theorem singleDisconnection_lookup
    (refList : RefList) (context : value)
    (ps : list (string * value)) (currentValue : prim) (t : trace) :
  let c := selectorCall refList context (field (Obj ps) "disconnect") in
  snd (singleDisconnection refList context (Obj ps) currentValue t)
  = (if needsLookup (Obj ps) currentValue
     then (t ++ [(c, respond refList t c)])%list else t) /\
  (truthy (field (Obj ps) "disconnectAll") = true ->
   fst (singleDisconnection refList context (Obj ps) currentValue t)
   = Ok (if truthy currentValue then Some [Prim currentValue] else None)).
Proof.
  intro c. rewrite singleDisconnection_spec.
  unfold needsLookup, disconnectTarget, or_else. cbv zeta.
  destruct (truthy currentValue) eqn:Hcur;
    destruct (truthy (field (Obj ps) "disconnectAll")) eqn:Hall;
    destruct (truthy (field (Obj ps) "disconnect")) eqn:Hsel;
    rewrite ?Hall, ?Hsel; cbn [andb negb fst snd];
    try (split; [reflexivity | intro; try discriminate; try reflexivity]).
  - now rewrite (proj2 (strict_equals_eq currentValue (Prim currentValue)) eq_refl).
  - now rewrite (proj2 (strict_equals_eq currentValue (Prim currentValue)) eq_refl).
  - destruct (truthy (field (field (Obj ps) "disconnect") "id"));
      cbn [fst snd negb]; (split; [reflexivity|discriminate]).
Qed.

Lemma disconnectTarget_trace (refList : RefList) (context input : value)
    (currentValue : prim) (t : trace) :
  exists events,
    snd (disconnectTarget refList context input currentValue t)
    = (t ++ events)%list /\ List.length events <= 1.
Proof.
  unfold disconnectTarget. cbv zeta.
  destruct (truthy (field input "disconnectAll")).
  - exists []. simpl. now rewrite app_nil_r; split; [|lia].
  - destruct (truthy (field (field input "disconnect") "id")).
    + exists []. simpl. now rewrite app_nil_r; split; [|lia].
    + eexists [_]. split; [reflexivity|simpl; lia].
Qed.

Lemma cleaned_object (raw cleaned : value) (many_ : bool)
    (localField : LocalField) (target : string) :
  cleanAndValidateInput raw many_ localField target = Ok cleaned ->
  exists ps, cleaned = Obj ps.
Proof.
  unfold cleanAndValidateInput.
  destruct (validateInput raw target many_) as [valid|e]; [|discriminate].
  intro H. inversion H. destruct raw; simpl; eauto.
Qed.

(** X9. What a to-one resolution returns: a disconnect set that is absent or
    holds exactly the current value, a connect set that is absent or holds
    exactly one identifier, after at most two collaborator calls. *)
Theorem resolveNested_toOne_result
    (groupByOther : value -> res (list value * list value))
    (input : value) (currentValue : prim) (listInfo : ListInfo)
    (context mutationState : value) (t t' : trace) (r : ResolutionResult) :
  resolveNested groupByOther input (ToOne currentValue) listInfo
    context mutationState t = (Ok r, t') ->
  (disconnect r = None \/
   (disconnect r = Some [Prim currentValue] /\ truthy currentValue = true)) /\
  (connect r = None \/ exists id, connect r = Some [id]) /\
  exists events, t' = (t ++ events)%list /\ List.length events <= 2.
Proof.
  unfold resolveNested. cbn [many].
  destruct (cleanAndValidateInput input false (localField_ listInfo)
              (targetOf listInfo)) as [cleaned|e] eqn:Hclean; [|discriminate].
  rewrite (bind_lift_Ok _ _ _ _ eq_refl).
  destruct (cleaned_object _ _ _ _ _ Hclean) as [ps ->].
  intro Hr.
  destruct (resolveNestedSingle_returns _ _ _ _ _ _ _ _ _ _ Hr)
    as [d [t1 [c [Hd [Hc ->]]]]].
  cbn [disconnect connect].
  rewrite singleDisconnection_spec in Hd.
  assert (Hdis : (d = None \/ (d = Some [Prim currentValue]
                               /\ truthy currentValue = true)) /\
                 exists ev1, t1 = (t ++ ev1)%list /\ List.length ev1 <= 1).
  { destruct (truthy (or_else (field (Obj ps) "disconnect")
                              (field (Obj ps) "disconnectAll"))).
    - destruct (truthy currentValue) eqn:Hcur; cbn [andb] in Hd.
      + cbv zeta in Hd. inversion Hd. split.
        * destruct (strict_equals currentValue _) eqn:Heq; [|now left].
          apply strict_equals_eq in Heq. rewrite Heq. now right.
        * apply disconnectTarget_trace.
      + inversion Hd. split; [now left|].
        exists []. rewrite app_nil_r. simpl. split; [reflexivity|lia].
    - cbn [andb] in Hd. inversion Hd. split; [now left|].
      exists []. rewrite app_nil_r. simpl. split; [reflexivity|lia]. }
  destruct Hdis as [Hset [ev1 [-> Hlen1]]].
  split; [exact Hset|].
  destruct (truthy (or_else (field (Obj ps) "connect") (field (Obj ps) "create")))
    eqn:Hguard.
  - pose proof (singleConnection_spec (foreignList listInfo) context
                  (localField_ listInfo) (targetOf listInfo) mutationState
                  ps (t ++ ev1)%list Hguard) as Hs.
    cbv zeta in Hs. rewrite Hs in Hc. inversion Hc as [[Hout Ht]].
    split.
    + unfold singleOutcome in Hout.
      destruct (respond _ _ _) as [item|reason]; [|discriminate].
      inversion Hout. destruct (truthy item); eauto.
    + eexists. rewrite <- app_assoc. split; [reflexivity|].
      rewrite length_app. simpl. lia.
  - rewrite (singleConnection_absent _ _ _ _ _ _ _ Hguard) in Hc.
    inversion Hc. subst. split; [now left|].
    exists ev1. split; [reflexivity|lia].
Qed.

Lemma resolveNested_toOne_result_witness :
  (Some [Prim (Str "4")] = None \/
   (Some [Prim (Str "4")] = Some [Prim (Str "4")] /\
    truthy (Prim (Str "4")) = true)) /\
  (Some [Example.num 5] = None \/ exists id, Some [Example.num 5] = Some [id]) /\
  exists events,
    [(ItemQuery (Example.byName "x") Example.noContext "Post",
      Fulfilled (Example.byId 4));
     (ItemQuery (Example.num 5) Example.noContext "Post",
      Fulfilled (Example.byId 5))]
    = ([] ++ events)%list /\ List.length events <= 2.
Proof.
  exact (resolveNested_toOne_result Example.groupByNothing
           (Obj [("disconnect", Example.byName "x"); ("connect", Example.byId 5)])
           (Str "4") Example.posts Example.noContext Example.noContext [] _ _
           eq_refl).
Defined.

Lemma failuresFrom_shape (localField : LocalField) (operation : string)
    (n : nat) (outcomes : list outcome) :
  operation = "connect" \/ operation = "create" ->
  Forall (batchEntry localField)
         (failuresFrom (operationPath localField operation) n outcomes).
Proof.
  intro Hop. revert n.
  induction outcomes as [|[v|reason] rest IH]; intro n; simpl.
  - constructor.
  - apply IH.
  - constructor; [|apply IH]. now exists reason, operation, n.
Qed.

(** X10. Every error [resolveNested] throws is one of three, each an [Error]
    with an [errors] list whose entries carry a path that starts with the
    field path: a validation failure, wrapped with path [[field.path]] and
    thrown before any collaborator call; for to-many, the aggregate failure,
    whose message counts its entries, of which there is at least one, each
    the rejection of a connect or create tagged with its position; for
    to-one, the failure of the single connect or create.  A raw [TypeError]
    or a raw rejection never escapes. *)
Theorem resolveNested_errors
    (groupByOther : value -> res (list value * list value))
    (input : value) (rel : relationship) (listInfo : ListInfo)
    (context mutationState : value) (t t' : trace) (e : thrown) :
  resolveNested groupByOther input rel listInfo context mutationState t
  = (Throw e, t') ->
  (exists cause,
      validateInput input (targetOf listInfo) (many rel) = Throw cause /\
      e = ErrorWithErrors
            ("Nested mutation operation invalid for " ++ targetOf listInfo)
            [Entry cause [Prim (Str (path (localField_ listInfo)))]] /\
      t' = t) \/
  (many rel = true /\
   exists errors,
     e = ErrorWithErrors
           ("Unable to create and/or connect "
            ++ string_of_nat (List.length errors) ++ " " ++ targetOf listInfo)
           errors /\
     errors <> [] /\
     Forall (batchEntry (localField_ listInfo)) errors) \/
  (many rel = false /\
   exists operation reason,
     (operation = "connect" \/ operation = "create") /\
     e = ErrorWithErrors
           ("Unable to " ++ operation ++ " a " ++ targetOf listInfo)
           [Entry (Rejection reason)
                  [Prim (Str (path (localField_ listInfo)));
                   Prim (Str operation)]]).
Proof.
  unfold resolveNested.
  destruct (cleanAndValidateInput input (many rel) (localField_ listInfo)
              (targetOf listInfo)) as [cleaned|e0] eqn:Hclean.
  - rewrite (bind_lift_Ok _ _ _ _ eq_refl).
    destruct rel as [currentValue|currentValue]; intro Hr; right.
    + left. split; [reflexivity|].
      pose proof (cleaned_many _ _ _ _ Hclean) as Hval.
      rewrite (resolveNestedMany_run _ _ _ _ _ _ _ _ _ Hval) in Hr.
      cbv zeta in Hr.
      match type of Hr with
      | (match ?f with _ => _ end, _) = _ => remember f as failures eqn:Hf
      end.
      destruct failures as [|e1 es]; [discriminate|].
      inversion Hr. exists (e1 :: es). split; [reflexivity|]. split; [discriminate|].
      rewrite Hf. apply Forall_app. split; apply failuresFrom_shape; auto.
    + right. split; [reflexivity|].
      destruct (cleaned_object _ _ _ _ _ Hclean) as [ps ->].
      unfold resolveNestedSingle in Hr.
      destruct (singleDisconnection_total (foreignList listInfo) context ps
                  currentValue t) as [d [t1 Hd]].
      rewrite (bind_M_Ok _ _ _ _ _ Hd) in Hr.
      destruct (truthy (or_else (field (Obj ps) "connect")
                                (field (Obj ps) "create"))) eqn:Hguard.
      * pose proof (singleConnection_spec (foreignList listInfo) context
                      (localField_ listInfo) (targetOf listInfo) mutationState
                      ps t1 Hguard) as Hs.
        cbv zeta in Hs. cbn [bind M_monad] in Hr. rewrite Hs in Hr.
        unfold singleOutcome in Hr.
        destruct (respond _ _ _) as [item|reason]; [discriminate|].
        inversion Hr. exists (singleOperation (Obj ps)), reason.
        split; [|reflexivity].
        unfold singleOperation.
        destruct (truthy (field (Obj ps) "connect")); [now left|now right].
      * rewrite (bind_M_Ok _ _ _ _ _
                   (singleConnection_absent _ _ _ _ _ _ _ Hguard)) in Hr.
        discriminate.
  - intro Hr. left. unfold cleanAndValidateInput in Hclean.
    destruct (validateInput input (targetOf listInfo) (many rel))
      as [valid|cause]; [discriminate|].
    exists cause. inversion Hclean. subst e0.
    inversion Hr. now repeat split.
Qed.

Lemma resolveNested_errors_witness :
  Forall (batchEntry Example.postsField)
         [Entry (Rejection (Prim (Str "transport")))
                [Prim (Str "posts"); Prim (Str "connect"); Example.num 1]].
Proof.
  destruct (resolveNested_errors Example.groupByNothing
              (Obj [("connect", Arr [Example.byId 5; Example.byId 6])])
              (ToMany []) Example.posts Example.noContext Example.noContext
              [] _ _ eq_refl)
    as [[cause [Hv _]] | [[_ [errors [He [_ Hall]]]] | [Hm _]]].
  - vm_compute in Hv. discriminate Hv.
  - inversion He. subst errors. exact Hall.
  - discriminate Hm.
Defined.

Lemma ask_Forall (refList : RefList) (P : call -> Prop) (calls : list call)
    (t : trace) :
  Forall P calls -> Forall (fun ev => P (fst ev)) (ask refList calls t).
Proof.
  intro H. revert t. induction H as [|c calls Hc _ IH]; intro t; simpl.
  - constructor.
  - constructor; [exact Hc | apply IH].
Qed.

Lemma Forall_map_intro {A B} (P : B -> Prop) (f : A -> B) (xs : list A) :
  (forall x, P (f x)) -> Forall P (map f xs).
Proof. intro H. apply Forall_forall. intros y Hy. apply in_map_iff in Hy.
  destruct Hy as [x [<- _]]. apply H. Qed.

(** X11. Every collaborator call of a resolution, of either cardinality and
    whether it ends in a result or in an error, carries the caller's request
    context unchanged; every lookup names the referenced list's item query
    and every creation carries the shared mutation state. *)
Theorem resolveNested_threads_context
    (groupByOther : value -> res (list value * list value))
    (input : value) (rel : relationship) (listInfo : ListInfo)
    (context mutationState : value) (t : trace) :
  exists events,
    snd (resolveNested groupByOther input rel listInfo context mutationState t)
    = (t ++ events)%list /\
    Forall (fun ev => threaded (foreignList listInfo) context mutationState (fst ev))
           events.
Proof.
  unfold resolveNested.
  destruct (cleanAndValidateInput input (many rel) (localField_ listInfo)
              (targetOf listInfo)) as [cleaned|e] eqn:Hclean.
  2: { exists []. simpl. rewrite app_nil_r. split; [reflexivity|constructor]. }
  rewrite (bind_lift_Ok _ _ _ _ eq_refl).
  set (P := fun ev : call * outcome =>
              threaded (foreignList listInfo) context mutationState (fst ev)).
  destruct rel as [currentValue|currentValue].
  - pose proof (cleaned_many _ _ _ _ Hclean) as Hval.
    rewrite (resolveNestedMany_run _ _ _ _ _ _ _ _ _ Hval). cbv zeta. cbn [snd].
    eexists. split; [rewrite <- !app_assoc; reflexivity|].
    apply Forall_app; split; [|apply Forall_app; split];
      apply (ask_Forall _ (threaded (foreignList listInfo) context mutationState));
      apply Forall_map_intro; intro x; simpl; now split.
  - destruct (cleaned_object _ _ _ _ _ Hclean) as [ps ->].
    unfold resolveNestedSingle.
    pose proof (singleDisconnection_spec (foreignList listInfo) context ps
                  currentValue t) as Hd.
    assert (Hone : exists d ev1,
               singleDisconnection (foreignList listInfo) context (Obj ps)
                 currentValue t = (Ok d, (t ++ ev1)%list) /\ Forall P ev1).
    { rewrite Hd.
      destruct (_ && _); cbv zeta.
      - unfold disconnectTarget. cbv zeta.
        destruct (truthy (field (Obj ps) "disconnectAll")); cbn [fst snd].
        + eexists. exists []. rewrite app_nil_r. split; [reflexivity|constructor].
        + destruct (truthy (field (field (Obj ps) "disconnect") "id"));
            cbn [fst snd].
          * eexists. exists []. rewrite app_nil_r.
            split; [reflexivity|constructor].
          * eexists. eexists. split; [reflexivity|].
            constructor; [|constructor]. subst P. simpl. now split.
      - exists None, []. rewrite app_nil_r. split; [reflexivity|constructor]. }
    destruct Hone as [d [ev1 [Hd' Hev1]]].
    rewrite (bind_M_Ok _ _ _ _ _ Hd').
    destruct (truthy (or_else (field (Obj ps) "connect") (field (Obj ps) "create")))
      eqn:Hguard.
    + pose proof (singleConnection_spec (foreignList listInfo) context
                    (localField_ listInfo) (targetOf listInfo) mutationState
                    ps (t ++ ev1)%list Hguard) as Hs.
      cbv zeta in Hs. cbn [bind M_monad]. rewrite Hs.
      eexists (ev1 ++ [_])%list. split.
      * rewrite app_assoc. now destruct (singleOutcome _ _ _ _).
      * apply Forall_app. split; [exact Hev1|].
        constructor; [|constructor]. subst P. cbn [fst].
        unfold singleCall, connectCall, createCall.
        destruct (truthy (field (Obj ps) "connect")); simpl; now split.
    + rewrite (bind_M_Ok _ _ _ _ _
                 (singleConnection_absent _ _ _ _ _ _ _ Hguard)).
      exists ev1. split; [reflexivity|exact Hev1].
Qed.

(* ================================================================= *)
(** ** The entries of the aggregate failure *)

(** The rejected positions of a batch of calls, one per item: they can be
    listed in increasing order, and the failures read off the batch are the
    entries at those positions. *)
Lemma rejected_positions (refList : RefList) (callOf : value -> call)
    (items : list value) (path : list value) (t : trace) :
  let events := ask refList (map callOf items) t in
  exists positions,
    StronglySorted lt positions /\
    (forall i, In i positions <->
               exists item reason,
                 nth_error items i = Some item /\
                 nth_error events i = Some (callOf item, Rejected reason)) /\
    failuresFrom path 0 (map snd events)
    = map (entryAt path (map snd events)) positions.
Proof.
  intro events.
  destruct (failuresFrom_positions path (map snd events) 0)
    as [positions [Hsorted [Hin Heq]]].
  exists positions. split; [assumption|]. split.
  - intro i. rewrite Hin. rewrite Nat.sub_0_r. split.
    + intros [_ [r Hr]]. apply ask_nth in Hr. destruct Hr as [item [Hi He]].
      now exists item, r.
    + intros [item [r [Hi He]]]. split; [lia|]. exists r.
      apply ask_nth. now exists item.
  - rewrite Heq. apply map_ext. intro i. unfold entryAt.
    now rewrite Nat.sub_0_r.
Qed.

(** C6. In a to-many resolution the connect lookups and the creations are
    each run as a batch, one call per item of the operation's input list, in
    input order.  Every rejected call yields exactly one entry of the
    aggregate error, whose path is [[localField.path, 'connect'|'create',
    index]] with [index] the position of the failed item in its operation's
    input list; the entries are listed by increasing position (input order),
    the connect entries before the create entries.  [resolveNestedMany]
    throws the error carrying exactly these entries when there is one, and
    returns a result when there is none. *)
Theorem resolveNestedMany_failure_entries
    (refList : RefList) (context : value) (localField : LocalField)
    (target : string) (mutationState : value)
    (groupByOther : value -> res (list value * list value))
    (raw input : value) (currentValue : list value) (t : trace) :
  cleanAndValidateInput raw true localField target = Ok input ->
  let run := resolveNestedMany refList context localField target mutationState
               groupByOther input currentValue t in
  let t1 :=
    snd (manyDisconnections refList context groupByOther input currentValue t) in
  let toConnect := elements (field input "connect") in
  let toCreate := elements (field input "create") in
  let connects := ask refList (map (connectCall refList context) toConnect) t1 in
  let creates :=
    ask refList (map (createCall context mutationState) toCreate)
        (t1 ++ connects)%list in
  exists connectFailed createFailed,
    StronglySorted lt connectFailed /\
    StronglySorted lt createFailed /\
    (forall i, In i connectFailed <->
               exists item reason,
                 nth_error toConnect i = Some item /\
                 nth_error connects i
                 = Some (connectCall refList context item, Rejected reason)) /\
    (forall i, In i createFailed <->
               exists item reason,
                 nth_error toCreate i = Some item /\
                 nth_error creates i
                 = Some (createCall context mutationState item, Rejected reason)) /\
    let errors :=
      (map (fun i => Entry (Rejection (settledReason
                                         (nth i (map snd connects) (Fulfilled undefined))))
                           [Prim (Str (path localField)); Prim (Str "connect");
                            index_value i]) connectFailed
       ++ map (fun i => Entry (Rejection (settledReason
                                            (nth i (map snd creates) (Fulfilled undefined))))
                              [Prim (Str (path localField)); Prim (Str "create");
                               index_value i]) createFailed)%list in
    snd run = ((t1 ++ connects) ++ creates)%list /\
    match errors with
    | [] => exists r, fst run = Ok r
    | _ :: _ =>
        fst run
        = Throw (ErrorWithErrors
                   ("Unable to create and/or connect "
                    ++ string_of_nat (List.length errors) ++ " " ++ target)
                   errors)
    end.
Proof.
  intros Hclean run t1 toConnect toCreate connects creates.
  pose proof (cleaned_many _ _ _ _ Hclean) as Hval.
  pose proof (manyDisconnections_events refList context groupByOther
                input currentValue t Hval) as Hd.
  cbv zeta in Hd.
  assert (Et : t1 = snd (manyDisconnections refList context groupByOther
                           input currentValue t)) by reflexivity.
  rewrite Hd in Et. cbn [snd] in Et.
  pose proof (resolveNestedMany_run refList context localField target
                mutationState groupByOther input currentValue t Hval) as Hrun.
  cbv zeta in Hrun. rewrite <- Et in Hrun.
  fold toConnect in Hrun. fold toCreate in Hrun.
  fold connects in Hrun. fold creates in Hrun. fold run in Hrun.
  destruct (rejected_positions refList (connectCall refList context) toConnect
              (operationPath localField "connect") t1)
    as [connectFailed [Hs1 [Hin1 Heq1]]].
  destruct (rejected_positions refList (createCall context mutationState) toCreate
              (operationPath localField "create") (t1 ++ connects)%list)
    as [createFailed [Hs2 [Hin2 Heq2]]].
  fold connects in Hin1, Heq1. fold creates in Hin2, Heq2.
  exists connectFailed, createFailed.
  split; [assumption|]. split; [assumption|].
  split; [exact Hin1|]. split; [exact Hin2|].
  cbv zeta. rewrite Heq1, Heq2 in Hrun.
  unfold entryAt, operationPath in Hrun. cbn [app] in Hrun.
  rewrite Hrun. cbn [fst snd]. split; [reflexivity|].
  match goal with
  | |- match ?l with _ => _ end => destruct l
  end; [eauto | reflexivity].
Qed.

Lemma resolveNestedMany_failure_entries_witness :
  snd (resolveNestedMany Example.Post Example.noContext Example.postsField
         "User.posts<Post>" Example.noContext Example.groupByNothing
         (Obj [("connect", Arr [Example.byId 5; Example.byId 6; Example.byId 8])])
         [] [])
  = [(ItemQuery (Example.num 5) Example.noContext "Post", Fulfilled (Example.byId 5));
     (ItemQuery (Example.num 6) Example.noContext "Post",
      Rejected (Prim (Str "transport")));
     (ItemQuery (Example.num 8) Example.noContext "Post", Fulfilled (Example.byId 8))].
Proof.
  destruct (resolveNestedMany_failure_entries Example.Post Example.noContext
              Example.postsField "User.posts<Post>" Example.noContext
              Example.groupByNothing
              (Obj [("connect", Arr [Example.byId 5; Example.byId 6; Example.byId 8])])
              (Obj [("connect", Arr [Example.byId 5; Example.byId 6; Example.byId 8])])
              [] [] eq_refl)
    as [connectFailed [createFailed [_ [_ [_ [_ [Htrace _]]]]]]].
  exact Htrace.
Defined.

(** The example of the specification, run through the resolver: of the
    connect list [[A, B, C]] the lookup of [B] is rejected; all three lookups
    are made and the error carries the one entry, tagged with index 1. *)
Example resolveNestedMany_second_of_three :
  resolveNestedMany Example.Post Example.noContext Example.postsField
    "User.posts<Post>" Example.noContext Example.groupByNothing
    (Obj [("connect", Arr [Example.byId 5; Example.byId 6; Example.byId 8])])
    [] []
  = (Throw (ErrorWithErrors
              "Unable to create and/or connect 1 User.posts<Post>"
              [Entry (Rejection (Prim (Str "transport")))
                     [Prim (Str "posts"); Prim (Str "connect"); Example.num 1]]),
     [(ItemQuery (Example.num 5) Example.noContext "Post", Fulfilled (Example.byId 5));
      (ItemQuery (Example.num 6) Example.noContext "Post",
       Rejected (Prim (Str "transport")));
      (ItemQuery (Example.num 8) Example.noContext "Post", Fulfilled (Example.byId 8))]).
Proof. reflexivity. Qed.
